(** * OAPilot MCP connection layer: a shallow embedding and its properties

    The development follows two source files of the repository:

    - [backend/app/core/mcp_client.py] (classes [MCPClient], [MCPManager]),
    - [backend/app/core/awsq_mcp_adapter.py] (classes
      [AWSQMCPServerConfig], [AWSQConfigLoader], [STDIOBridge]).

    Python objects are records, Python dicts are insertion-ordered
    association lists with unique keys, exceptions are values of [exn],
    and every method becomes a function in a small state-and-exception
    monad over the object it mutates.  What the code obtains from the
    outside (the HTTP peer of a client, the operating system under a
    bridge) is an explicit oracle argument. *)

From Stdlib Require Import ZArith List String Ascii Bool Lia Permutation QArith.
From Stdlib Require Import DecimalString.
Import ListNotations.

Set Warnings "-register-all".
Local Open Scope string_scope.
Local Open Scope Z_scope.

(* ===================================================================== *)
(** ** Python exceptions and results *)
(* ===================================================================== *)

(** The exception classes that the modelled code can meet.  All of them
    derive from [Exception]; [TimeoutError] is the class named by
    [except asyncio.TimeoutError]. *)
Inductive exn_class :=
| TimeoutError
| TypeError
| AttributeError
| KeyError
| JSONDecodeError
| ProcessLookupError
| ConnectionResetError
| FileNotFoundError
| OSError
| ClientError.

Record exn := Exn { exn_cls : exn_class; exn_msg : string }.

Definition is_timeout (e : exn) : bool :=
  match exn_cls e with TimeoutError => true | _ => false end.

(** [str(e)] *)
Definition str_exn (e : exn) : string := exn_msg e.

(** Outcome of evaluating a Python expression: a value or a raised
    exception. *)
Inductive res (A : Type) :=
| Ret (a : A)
| Raise (e : exn).
Arguments Ret {A} a.
Arguments Raise {A} e.

Definition returns {A} (r : res A) : bool :=
  match r with Ret _ => true | Raise _ => false end.

(** A method of an object of type [S]: it may mutate the object and it
    either returns or raises.  Mutations made before a raise stay. *)
Definition Py (S A : Type) : Type := S -> res A * S.

Definition ret {S A} (a : A) : Py S A := fun s => (Ret a, s).
Definition raise {S A} (e : exn) : Py S A := fun s => (Raise e, s).
Definition bind {S A B} (m : Py S A) (k : A -> Py S B) : Py S B :=
  fun s => match m s with
           | (Ret a, s') => k a s'
           | (Raise e, s') => (Raise e, s')
           end.
Definition get {S} : Py S S := fun s => (Ret s, s).
Definition modify {S} (f : S -> S) : Py S unit := fun s => (Ret tt, f s).
Definition lift {S A} (r : res A) : Py S A := fun s => (r, s).

(** [try: body  except Exception as e: handler e] *)
Definition try_except {S A} (body : Py S A) (handler : exn -> Py S A) : Py S A :=
  fun s => match body s with
           | (Ret a, s') => (Ret a, s')
           | (Raise e, s') => handler e s'
           end.

Declare Scope py_scope.
Delimit Scope py_scope with py.
Notation "x <- m ;; k" := (bind m (fun x => k))
  (at level 100, m at next level, right associativity) : py_scope.
Notation "m ;;; k" := (bind m (fun _ => k))
  (at level 100, right associativity) : py_scope.

(* ===================================================================== *)
(** ** Python dicts *)
(* ===================================================================== *)

(** A [dict] with string keys: an association list in insertion order.
    [dset] overwrites in place when the key is present and appends
    otherwise, so a dict built from the empty one never repeats a key. *)
Module PyDict.

Definition dict (V : Type) : Type := list (string * V).

Fixpoint dget {V} (k : string) (d : dict V) : option V :=
  match d with
  | [] => None
  | (k', v) :: r => if String.eqb k k' then Some v else dget k r
  end.

Definition dmem {V} (k : string) (d : dict V) : bool :=
  match dget k d with Some _ => true | None => false end.

Fixpoint dset {V} (k : string) (v : V) (d : dict V) : dict V :=
  match d with
  | [] => [(k, v)]
  | (k', v') :: r =>
      if String.eqb k k' then (k', v) :: r else (k', v') :: dset k v r
  end.

Fixpoint ddel {V} (k : string) (d : dict V) : dict V :=
  match d with
  | [] => []
  | (k', v') :: r => if String.eqb k k' then r else (k', v') :: ddel k r
  end.

Definition dkeys {V} (d : dict V) : list string := map fst d.

(** [len(d)] as a Python int. *)
Definition dlen {V} (d : dict V) : Z := Z.of_nat (List.length d).

(** [d.update(other)] *)
Definition dupdate {V} (d other : dict V) : dict V :=
  fold_left (fun acc kv => dset (fst kv) (snd kv) acc) other d.

(** Python's [==] on dicts ignores order: equal lookups at every key. *)
Definition dict_equiv {V} (d1 d2 : dict V) : Prop :=
  forall k, dget k d1 = dget k d2.

End PyDict.
Import PyDict.

(* ===================================================================== *)
(** ** JSON values as Python sees them *)
(* ===================================================================== *)

(** What [json.loads] and [response.json()] produce.  [JNull] is Python's
    [None].  JSON numbers are kept to the integers: a float behaves like
    an int in every operation the modelled code applies to a value
    (truth test, [in], subscript, [.get]). *)
Inductive json :=
| JNull
| JBool (b : bool)
| JInt (n : Z)
| JStr (s : string)
| JList (l : list json)
| JDict (d : list (string * json)).

(** Substring test, Python's [a in b] on two strings. *)
Fixpoint is_substring (a b : string) : bool :=
  if String.prefix a b then true
  else match b with
       | EmptyString => false
       | String _ b' => is_substring a b'
       end.

Module PyVal.

(** [bool(v)] *)
Definition truthy (v : json) : bool :=
  match v with
  | JNull => false
  | JBool b => b
  | JInt n => negb (n =? 0)
  | JStr s => negb (String.eqb s EmptyString)
  | JList l => match l with [] => false | _ => true end
  | JDict d => match d with [] => false | _ => true end
  end.

(** [key in v] for a string [key]: key membership on a dict, element
    membership on a list, substring on a string, [TypeError] otherwise. *)
Definition py_in (key : string) (v : json) : res bool :=
  match v with
  | JDict d => Ret (dmem key d)
  | JList l =>
      Ret (existsb (fun x => match x with
                             | JStr s => String.eqb key s
                             | _ => false
                             end) l)
  | JStr s => Ret (is_substring key s)
  | JNull => Raise (Exn TypeError "argument of type 'NoneType' is not iterable")
  | JBool _ => Raise (Exn TypeError "argument of type 'bool' is not iterable")
  | JInt _ => Raise (Exn TypeError "argument of type 'int' is not iterable")
  end.

(** [v[key]] for a string [key]. *)
Definition py_getitem (v : json) (key : string) : res json :=
  match v with
  | JDict d => match dget key d with
               | Some x => Ret x
               | None => Raise (Exn KeyError key)
               end
  | JList _ => Raise (Exn TypeError "list indices must be integers or slices, not str")
  | JStr _ => Raise (Exn TypeError "string indices must be integers")
  | JNull => Raise (Exn TypeError "'NoneType' object is not subscriptable")
  | JBool _ => Raise (Exn TypeError "'bool' object is not subscriptable")
  | JInt _ => Raise (Exn TypeError "'int' object is not subscriptable")
  end.

(** [v.get(key, default)]: only a dict has the method. *)
Definition py_get (v : json) (key : string) (default : json) : res json :=
  match v with
  | JDict d => match dget key d with
               | Some x => Ret x
               | None => Ret default
               end
  | JNull => Raise (Exn AttributeError "'NoneType' object has no attribute 'get'")
  | JBool _ => Raise (Exn AttributeError "'bool' object has no attribute 'get'")
  | JInt _ => Raise (Exn AttributeError "'int' object has no attribute 'get'")
  | JStr _ => Raise (Exn AttributeError "'str' object has no attribute 'get'")
  | JList _ => Raise (Exn AttributeError "'list' object has no attribute 'get'")
  end.

(** [response and "result" in response], the test every client method
    applies to what [_send_request] returned. *)
Definition has_result (response : json) : res bool :=
  if truthy response then py_in "result" response else Ret false.

Definition is_dict (v : json) : bool :=
  match v with JDict _ => true | _ => false end.

End PyVal.
Import PyVal.

(* ===================================================================== *)
(** ** The [json] module: [dumps] and [loads] *)
(* ===================================================================== *)

(** Text form of JSON values as Python's [json] module writes and reads
    it, on ASCII text: [dumps] uses the default separators [", "] and
    [": "] and escapes quotes, backslashes and control characters, so its
    output never contains a raw newline; [loads] accepts surrounding
    white space and rejects anything but one JSON value. *)
Module Codec.

Definition dquote : ascii := ascii_of_N 34.
Definition backslash : ascii := ascii_of_N 92.

Definition string_of_Z (n : Z) : string := NilZero.string_of_int (Z.to_int n).

Definition hex_digit (n : N) : ascii :=
  ascii_of_N (if (n <? 10)%N then 48 + n else 87 + n)%N.

Definition escape_char (c : ascii) : string :=
  let n := N_of_ascii c in
  if (n =? 34)%N then String backslash (String dquote EmptyString)
  else if (n =? 92)%N then String backslash (String backslash EmptyString)
  else if (n =? 10)%N then "\n"
  else if (n =? 13)%N then "\r"
  else if (n =? 9)%N then "\t"
  else if (n =? 8)%N then "\b"
  else if (n =? 12)%N then "\f"
  else if (n <? 32)%N then
    "\u00" ++ String (hex_digit (n / 16))
                 (String (hex_digit (n mod 16)) EmptyString)
  else String c EmptyString.

Fixpoint escape (s : string) : string :=
  match s with
  | EmptyString => EmptyString
  | String c r => escape_char c ++ escape r
  end.

Definition quote (s : string) : string :=
  String dquote (escape s ++ String dquote EmptyString).

Fixpoint dumps (v : json) : string :=
  match v with
  | JNull => "null"
  | JBool true => "true"
  | JBool false => "false"
  | JInt n => string_of_Z n
  | JStr s => quote s
  | JList l => "[" ++ String.concat ", " (map dumps l) ++ "]"
  | JDict d =>
      "{" ++ String.concat ", "
               (map (fun kv => quote (fst kv) ++ ": " ++ dumps (snd kv)) d)
          ++ "}"
  end.

Definition is_ws (c : ascii) : bool :=
  let n := N_of_ascii c in
  ((n =? 32) || (n =? 9) || (n =? 10) || (n =? 13))%N.

Fixpoint skip_ws (s : list ascii) : list ascii :=
  match s with
  | c :: r => if is_ws c then skip_ws r else s
  | [] => []
  end.

Definition digit_val (c : ascii) : option Z :=
  let n := N_of_ascii c in
  if ((48 <=? n) && (n <=? 57))%N then Some (Z.of_N n - 48) else None.

Fixpoint parse_digits (acc : Z) (s : list ascii) : Z * list ascii :=
  match s with
  | c :: r => match digit_val c with
              | Some d => parse_digits (10 * acc + d) r
              | None => (acc, s)
              end
  | [] => (acc, [])
  end.

Definition parse_nat (s : list ascii) : option (Z * list ascii) :=
  match s with
  | c :: _ => match digit_val c with
              | Some _ => Some (parse_digits 0 s)
              | None => None
              end
  | [] => None
  end.

Definition hex_val (c : ascii) : option N :=
  let n := N_of_ascii c in
  if ((48 <=? n) && (n <=? 57))%N then Some (n - 48)%N
  else if ((97 <=? n) && (n <=? 102))%N then Some (n - 87)%N
  else if ((65 <=? n) && (n <=? 70))%N then Some (n - 55)%N
  else None.

(** The characters of a string literal after its opening quote. *)
Fixpoint parse_chars (s : list ascii) : option (string * list ascii) :=
  match s with
  | [] => None
  | c :: r =>
      let n := N_of_ascii c in
      if (n =? 34)%N then Some (EmptyString, r)
      else if (n =? 92)%N then
        match r with
        | e :: r' =>
            let m := N_of_ascii e in
            let simple (x : N) :=
              match parse_chars r' with
              | Some (t, r'') => Some (String (ascii_of_N x) t, r'')
              | None => None
              end in
            if (m =? 34)%N then simple 34%N
            else if (m =? 92)%N then simple 92%N
            else if (m =? 47)%N then simple 47%N
            else if (m =? 110)%N then simple 10%N
            else if (m =? 114)%N then simple 13%N
            else if (m =? 116)%N then simple 9%N
            else if (m =? 98)%N then simple 8%N
            else if (m =? 102)%N then simple 12%N
            else if (m =? 117)%N then
              match r' with
              | h1 :: h2 :: h3 :: h4 :: r'' =>
                  match hex_val h1, hex_val h2, hex_val h3, hex_val h4 with
                  | Some 0%N, Some 0%N, Some a, Some b =>
                      if (a <? 8)%N then
                        match parse_chars r'' with
                        | Some (t, r3) =>
                            Some (String (ascii_of_N (16 * a + b)) t, r3)
                        | None => None
                        end
                      else None
                  | _, _, _, _ => None
                  end
              | _ => None
              end
            else None
        | [] => None
        end
      else if (n <? 32)%N then None
      else match parse_chars r with
           | Some (t, r') => Some (String c t, r')
           | None => None
           end
  end.

Fixpoint parse_value (fuel : nat) (s : list ascii) {struct fuel}
  : option (json * list ascii) :=
  match fuel with
  | O => None
  | S f =>
      match skip_ws s with
      | [] => None
      | c :: r =>
          let n := N_of_ascii c in
          if (n =? 34)%N then
            match parse_chars r with
            | Some (t, r') => Some (JStr t, r')
            | None => None
            end
          else if (n =? 45)%N then
            match parse_nat r with
            | Some (k, r') => Some (JInt (- k), r')
            | None => None
            end
          else if (n =? 91)%N then
            match skip_ws r with
            | "]"%char :: r' => Some (JList [], r')
            | _ => match parse_elems f r with
                   | Some (l, r') => Some (JList l, r')
                   | None => None
                   end
            end
          else if (n =? 123)%N then
            match skip_ws r with
            | "}"%char :: r' => Some (JDict [], r')
            | _ => match parse_members f r with
                   | Some (d, r') => Some (JDict d, r')
                   | None => None
                   end
            end
          else
            match c :: r with
            | "n"%char :: "u"%char :: "l"%char :: "l"%char :: r' =>
                Some (JNull, r')
            | "t"%char :: "r"%char :: "u"%char :: "e"%char :: r' =>
                Some (JBool true, r')
            | "f"%char :: "a"%char :: "l"%char :: "s"%char :: "e"%char :: r' =>
                Some (JBool false, r')
            | r0 => match parse_nat r0 with
                    | Some (k, r') => Some (JInt k, r')
                    | None => None
                    end
            end
      end
  end

with parse_elems (fuel : nat) (s : list ascii) {struct fuel}
  : option (list json * list ascii) :=
  match fuel with
  | O => None
  | S f =>
      match parse_value f s with
      | Some (v, r) =>
          match skip_ws r with
          | ","%char :: r' =>
              match parse_elems f r' with
              | Some (l, r'') => Some (v :: l, r'')
              | None => None
              end
          | "]"%char :: r' => Some ([v], r')
          | _ => None
          end
      | None => None
      end
  end

with parse_members (fuel : nat) (s : list ascii) {struct fuel}
  : option (list (string * json) * list ascii) :=
  match fuel with
  | O => None
  | S f =>
      match skip_ws s with
      | c :: r =>
          if negb (N_of_ascii c =? 34)%N then None else
          match parse_chars r with
          | Some (k, r1) =>
              match skip_ws r1 with
              | ":"%char :: r2 =>
                  match parse_value f r2 with
                  | Some (v, r3) =>
                      match skip_ws r3 with
                      | ","%char :: r4 =>
                          match parse_members f r4 with
                          | Some (d, r5) =>
                              (* a repeated key keeps its first position and
                                 takes the last value, as a Python dict does *)
                              Some (if dmem k d then
                                      (k, match dget k d with
                                          | Some v' => v'
                                          | None => v
                                          end) :: ddel k d
                                    else (k, v) :: d, r5)
                          | None => None
                          end
                      | "}"%char :: r4 => Some ([(k, v)], r4)
                      | _ => None
                      end
                  | None => None
                  end
              | _ => None
              end
          | None => None
          end
      | _ => None
      end
  end.

Definition loads (text : string) : res json :=
  let s := list_ascii_of_string text in
  match parse_value (2 * List.length s + 2) s with
  | Some (v, r) =>
      match skip_ws r with
      | [] => Ret v
      | _ => Raise (Exn JSONDecodeError "Extra data")
      end
  | None => Raise (Exn JSONDecodeError "Expecting value")
  end.

End Codec.

(* ===================================================================== *)
(** ** [app.core.config.settings] *)
(* ===================================================================== *)

Record Settings := {
  MAX_MCP_CONNECTIONS : Z;
  MCP_TIMEOUT_SECONDS : Z
}.

(** The defaults of [class Settings]. *)
Definition default_settings : Settings :=
  {| MAX_MCP_CONNECTIONS := 3; MCP_TIMEOUT_SECONDS := 30 |}.

(* ===================================================================== *)
(** ** The HTTP peer of a client *)
(* ===================================================================== *)

(** What [async with self.session.post(endpoint, json=request)] does: it
    raises (connection refused, [asyncio.TimeoutError], ...), or it yields
    a response with a status and a body; [body] is what
    [await response.json()] gives, a value or a raised decoding error. *)
Inductive post_outcome :=
| PostRaises (e : exn)
| PostResponse (status : Z) (body : res json).

(** The network: the outcome of posting a request to an endpoint.  Each
    request of a client carries its own [id], so the function may answer
    every request of a run on its own. *)
Definition transport := string -> json -> post_outcome.

(* ===================================================================== *)
(** ** [class MCPClient] *)
(* ===================================================================== *)

Module MCPClient.

Record ClientSession := { timeout_total : Z }.

Record client := mk_client {
  server_id : string;
  endpoint : string;
  name : string;
  session : option ClientSession;
  capabilities : json;
  is_connected : bool;
  _request_id : Z
}.

Definition set_session (v : option ClientSession) (c : client) : client :=
  mk_client (server_id c) (endpoint c) (name c) v (capabilities c)
            (is_connected c) (_request_id c).
Definition set_capabilities (v : json) (c : client) : client :=
  mk_client (server_id c) (endpoint c) (name c) (session c) v
            (is_connected c) (_request_id c).
Definition set_is_connected (v : bool) (c : client) : client :=
  mk_client (server_id c) (endpoint c) (name c) (session c) (capabilities c)
            v (_request_id c).
Definition set_request_id (v : Z) (c : client) : client :=
  mk_client (server_id c) (endpoint c) (name c) (session c) (capabilities c)
            (is_connected c) v.

(** [__init__]: [self.name = name or server_id]. *)
Definition init (server_id endpoint name : string) : client :=
  {| server_id := server_id;
     endpoint := endpoint;
     name := if String.eqb name EmptyString then server_id else name;
     session := None;
     capabilities := JDict [];
     is_connected := false;
     _request_id := 0 |}.

Section WithNetwork.

Variable settings : Settings.
Variable net : transport.

Local Open Scope py_scope.

(** The request object built by [_send_request]; [params] is added only
    when it is truthy. *)
Definition make_request (id : Z) (method : string) (params : json) : json :=
  JDict ([("jsonrpc", JStr "2.0"); ("id", JInt id); ("method", JStr method)]
           ++ (if truthy params then [("params", params)] else []))%list.

(** [_send_request]: every exception of the post, of the status test and
    of the body decoding is caught by one of the two handlers, which both
    fall through to [return None]. *)
Definition _send_request (method : string) (params : json) : Py client json :=
  modify (fun c => set_request_id (_request_id c + 1) c) ;;;
  c <- get ;;
  let request := make_request (_request_id c) method params in
  try_except
    (match session c with
     | None =>
         raise (Exn AttributeError "'NoneType' object has no attribute 'post'")
     | Some _ =>
         match net (endpoint c) request with
         | PostRaises e => raise e
         | PostResponse status body =>
             if status =? 200 then lift body else ret JNull
         end
     end)
    (fun e => if is_timeout e then ret JNull else ret JNull).

Definition initialize_params : json :=
  JDict [("clientInfo",
          JDict [("name", JStr "OAPilot"); ("version", JStr "1.0.0")])].

(** [connect].  The body of the [try] yields [Some true] at its
    [return True] and [None] when it runs off its end; the handler sets
    [is_connected = False]; both of the latter reach [return False]. *)
Definition connect : Py client bool :=
  r <- try_except
         (c <- get ;;
          (match session c with
           | None =>
               modify (set_session
                         (Some {| timeout_total := MCP_TIMEOUT_SECONDS settings |}))
           | Some _ => ret tt
           end) ;;;
          response <- _send_request "initialize" initialize_params ;;
          ok <- lift (has_result response) ;;
          if ok : bool then
            result <- lift (py_getitem response "result") ;;
            caps <- lift (py_get result "capabilities" (JDict [])) ;;
            modify (set_capabilities caps) ;;;
            modify (set_is_connected true) ;;;
            ret (Some true)
          else ret None)
         (fun e => modify (set_is_connected false) ;;; ret None) ;;
  match r with
  | Some b => ret b
  | None => ret false
  end.

(** [disconnect]: closing the session does not fail in the model. *)
Definition disconnect : Py client unit :=
  try_except
    (c <- get ;;
     (match session c with
      | Some _ => modify (set_session None)
      | None => ret tt
      end) ;;;
     modify (set_is_connected false))
    (fun e => ret tt).

(** [if not self.is_connected: await self.connect()] *)
Definition ensure_connected : Py client unit :=
  c <- get ;;
  if is_connected c then ret tt else (connect ;;; ret tt).

Definition list_resources : Py client json :=
  ensure_connected ;;;
  response <- _send_request "resources/list" JNull ;;
  ok <- lift (has_result response) ;;
  if ok : bool then
    result <- lift (py_getitem response "result") ;;
    lift (py_get result "resources" (JList []))
  else ret (JList []).

Definition list_tools : Py client json :=
  ensure_connected ;;;
  response <- _send_request "tools/list" JNull ;;
  ok <- lift (has_result response) ;;
  if ok : bool then
    result <- lift (py_getitem response "result") ;;
    lift (py_get result "tools" (JList []))
  else ret (JList []).

(** [arguments or {}] *)
Definition or_empty_dict (arguments : json) : json :=
  if truthy arguments then arguments else JDict [].

Definition call_tool_params (tool_name : string) (arguments : json) : json :=
  JDict [("name", JStr tool_name); ("arguments", or_empty_dict arguments)].

Definition call_tool (tool_name : string) (arguments : json) : Py client json :=
  ensure_connected ;;;
  response <- _send_request "tools/call" (call_tool_params tool_name arguments) ;;
  ok <- lift (has_result response) ;;
  if ok : bool then lift (py_getitem response "result") else ret JNull.

Definition health_check : Py client bool :=
  try_except
    (response <- _send_request "ping" JNull ;;
     ret (match response with JNull => false | _ => true end))
    (fun e => ret false).

End WithNetwork.

End MCPClient.

(* ===================================================================== *)
(** ** [class MCPManager] *)
(* ===================================================================== *)

Module MCPManager.

Import MCPClient.

(** [self.clients]: the manager's only mutable field that the modelled
    methods touch.  A client object is shared between the dict and the
    method that works on it, so a method's mutations are written back
    under the same key. *)
Definition clients_t := dict client.

Section WithNetwork.

Variable settings : Settings.
Variable net : transport.

(** What the two guards at the head of [add_server] decide. *)
Inductive guard_result :=
| Reject
| Accept (c : client).

(** [add_server] up to its only suspension point: the two guards and the
    construction of the client. *)
Definition add_server_enter (server_id endpoint name : string)
           (clients : clients_t) : guard_result :=
  if dmem server_id clients then Reject
  else if dlen clients >=? MAX_MCP_CONNECTIONS settings then Reject
  else Accept (init server_id endpoint name).

(** [add_server] from [await client.connect()] on. *)
Definition add_server_finish (server_id : string) (c : client)
  : Py clients_t bool :=
  fun clients =>
    match connect settings net c with
    | (Ret true, c') => (Ret true, dset server_id c' clients)
    | (Ret false, _) => (Ret false, clients)
    | (Raise e, _) => (Raise e, clients)
    end.

(** [add_server], run without interruption (the body of
    [async with self._lock]). *)
Definition add_server (server_id endpoint name : string) : Py clients_t bool :=
  fun clients =>
    match add_server_enter server_id endpoint name clients with
    | Reject => (Ret false, clients)
    | Accept c => add_server_finish server_id c clients
    end.

Definition remove_server (server_id : string) : Py clients_t unit :=
  fun clients =>
    match dget server_id clients with
    | Some c =>
        match disconnect c with
        | (Ret _, _) => (Ret tt, ddel server_id clients)
        | (Raise e, c') => (Raise e, dset server_id c' clients)
        end
    | None => (Ret tt, clients)
    end.

(** The loop of [get_all_resources] over [self.clients.items()]. *)
Fixpoint get_all_resources_loop (items : list (string * client))
         (resources : dict json) : Py clients_t (dict json) :=
  match items with
  | [] => ret resources
  | (server_id, c) :: rest =>
      if is_connected c then
        fun clients =>
          match list_resources settings net c with
          | (Ret v, c') =>
              get_all_resources_loop rest (dset server_id v resources)
                                     (dset server_id c' clients)
          | (Raise e, c') => (Raise e, dset server_id c' clients)
          end
      else get_all_resources_loop rest resources
  end.

Definition get_all_resources : Py clients_t (dict json) :=
  fun clients => get_all_resources_loop clients [] clients.

Definition not_found : json :=
  JDict [("success", JBool false); ("error", JStr "Server not found")].

Definition tool_success (result : json) : json :=
  JDict [("success", JBool true); ("result", result)].

Definition tool_failure (e : exn) : json :=
  JDict [("success", JBool false); ("error", JStr (str_exn e))].

Local Open Scope py_scope.

(** The part of [execute_tool] that runs on the client once it is found. *)
Definition execute_tool_on (tool_name : string) (arguments : json)
  : Py client json :=
  ensure_connected settings net ;;;
  try_except
    (result <- call_tool settings net tool_name arguments ;;
     ret (tool_success result))
    (fun e => ret (tool_failure e)).

Definition execute_tool (server_id tool_name : string) (arguments : json)
  : Py clients_t json :=
  fun clients =>
    match dget server_id clients with
    | None => (Ret not_found, clients)
    | Some c =>
        let (r, c') := execute_tool_on tool_name arguments c in
        (r, dset server_id c' clients)
    end.

(** *** Concurrent [add_server] calls

    Each call is a task.  A task waits for [self._lock]; the task that
    takes the free lock runs the guards at once and either returns false
    (releasing the lock) or suspends in [client.connect()] with the lock
    held; when its connect completes it registers or not, returns, and
    releases the lock.  The scheduler may pick any enabled task. *)
Inductive task :=
| Waiting (server_id endpoint name : string)
| Connecting (server_id : string) (c : client)
| Done (server_id : string) (result : res bool).

Record system := mk_system {
  sys_clients : clients_t;
  sys_locked : bool;
  sys_tasks : list task
}.

Inductive step : system -> system -> Prop :=
| step_reject pre post sid ep nm cl :
    add_server_enter sid ep nm cl = Reject ->
    step (mk_system cl false (pre ++ Waiting sid ep nm :: post))
         (mk_system cl false (pre ++ Done sid (Ret false) :: post))
| step_enter pre post sid ep nm cl c :
    add_server_enter sid ep nm cl = Accept c ->
    step (mk_system cl false (pre ++ Waiting sid ep nm :: post))
         (mk_system cl true (pre ++ Connecting sid c :: post))
| step_finish pre post sid c cl :
    step (mk_system cl true (pre ++ Connecting sid c :: post))
         (mk_system (snd (add_server_finish sid c cl)) false
                    (pre ++ Done sid (fst (add_server_finish sid c cl)) :: post)).

Inductive steps : system -> system -> Prop :=
| steps_refl s : steps s s
| steps_step s1 s2 s3 : steps s1 s2 -> step s2 s3 -> steps s1 s3.

(** The manager with [calls] issued together and none started yet. *)
Definition launch (clients : clients_t) (calls : list (string * string * string))
  : system :=
  mk_system clients false
            (map (fun c => Waiting (fst (fst c)) (snd (fst c)) (snd c)) calls).

Definition is_done (t : task) : bool :=
  match t with Done _ _ => true | _ => false end.

Definition finished (s : system) : Prop :=
  forallb is_done (sys_tasks s) = true.

Definition returned (b : bool) (t : task) : bool :=
  match t with
  | Done _ (Ret b') => Bool.eqb b b'
  | _ => false
  end.

Definition count_returned (b : bool) (s : system) : nat :=
  List.length (filter (returned b) (sys_tasks s)).

(** Steps a task still has to take: the measure that bounds every run. *)
Definition task_weight (t : task) : nat :=
  match t with Waiting _ _ _ => 2 | Connecting _ _ => 1 | Done _ _ => 0 end.

Definition weight (s : system) : nat :=
  list_sum (map task_weight (sys_tasks s)).

End WithNetwork.

End MCPManager.

(* ===================================================================== *)
(** ** [class AWSQMCPServerConfig] and [class AWSQConfigLoader] *)
(* ===================================================================== *)

Module AWSQ.

Inductive MCPTransportType := STDIO | HTTP.

(** The dataclass.  [from_dict] stores whatever the JSON entry holds, so
    every optional field is a JSON value ([JNull] when absent). *)
Record AWSQMCPServerConfig := mk_config {
  name : string;
  transport_type : MCPTransportType;
  command : json;
  args : json;
  env : json;
  timeout : json;
  url : json;
  headers : json;
  oauth_client_id : json;
  oauth_client_secret : json;
  oauth_redirect_uri : json
}.

Definition rbind {A B} (r : res A) (k : A -> res B) : res B :=
  match r with
  | Ret a => k a
  | Raise e => Raise e
  end.

Notation "x <~ r ;; k" := (rbind r (fun x => k))
  (at level 100, r at next level, right associativity).

(** [v == "http"] *)
Definition equals_str (v : json) (s : string) : bool :=
  match v with
  | JStr s' => String.eqb s' s
  | _ => false
  end.

(** [AWSQMCPServerConfig.from_dict]: every [config.get] raises
    [AttributeError] when [config] is not a dict. *)
Definition from_dict (name : string) (config : json) : res AWSQMCPServerConfig :=
  ty <~ py_get config "type" JNull ;;
  let transport_type := if equals_str ty "http" then HTTP else STDIO in
  command <~ py_get config "command" JNull ;;
  args <~ py_get config "args" (JList []) ;;
  env <~ py_get config "env" (JDict []) ;;
  timeout <~ py_get config "timeout" (JInt 30000) ;;
  url <~ py_get config "url" JNull ;;
  headers <~ py_get config "headers" (JDict []) ;;
  oauth_client_id <~ py_get config "oauthClientId" JNull ;;
  oauth_client_secret <~ py_get config "oauthClientSecret" JNull ;;
  oauth_redirect_uri <~ py_get config "oauthRedirectUri" JNull ;;
  Ret (mk_config name transport_type command args env timeout url headers
                 oauth_client_id oauth_client_secret oauth_redirect_uri).

(** [v.items()] *)
Definition py_items (v : json) : res (list (string * json)) :=
  match v with
  | JDict d => Ret d
  | _ => Raise (Exn AttributeError "object has no attribute 'items'")
  end.

(** The loop of [extract_mcp_servers]: an entry whose [from_dict] raises
    is logged and left out, the loop goes on. *)
Fixpoint extract_loop (items : list (string * json))
         (mcp_servers : dict AWSQMCPServerConfig) : dict AWSQMCPServerConfig :=
  match items with
  | [] => mcp_servers
  | (server_name, server_config) :: rest =>
      match from_dict server_name server_config with
      | Ret mcp_server =>
          extract_loop rest (dset server_name mcp_server mcp_servers)
      | Raise _ => extract_loop rest mcp_servers
      end
  end.

Definition extract_mcp_servers (config : json)
  : res (dict AWSQMCPServerConfig) :=
  present <~ py_in "mcpServers" config ;;
  if negb present then Ret []
  else
    servers <~ py_getitem config "mcpServers" ;;
    items <~ py_items servers ;;
    Ret (extract_loop items []).

(** An entry parses exactly when [from_dict] returns on it. *)
Definition well_formed (entry : string * json) : bool :=
  returns (from_dict (fst entry) (snd entry)).

Definition malformed (entry : string * json) : bool := negb (well_formed entry).

(** The [mcpServers] entries of a loaded configuration file. *)
Definition entries_of (config : json) : list (string * json) :=
  match config with
  | JDict d => match dget "mcpServers" d with
               | Some (JDict entries) => entries
               | _ => []
               end
  | _ => []
  end.

(** The number of descriptors [extract_mcp_servers] yields on a file. *)
Definition extracted_count (config : json) : nat :=
  match extract_mcp_servers config with
  | Ret servers => List.length servers
  | Raise _ => 0
  end.

End AWSQ.

(* ===================================================================== *)
(** ** [class STDIOBridge] *)
(* ===================================================================== *)

Module STDIOBridge.

Import AWSQ.

(** *** The operating system under a bridge *)

(** A child process as asyncio presents it.  [Exited] is a child whose
    exit the event loop has seen: its transport is closed, and
    [Process.terminate()] then raises [ProcessLookupError]
    ([asyncio.base_subprocess._check_proc]).  A child answers a line on
    its stdin with lines on its stdout, each after some latency in
    seconds; [behaviour] gets the earlier stdin lines and the new one. *)
Inductive child_status := Running | Terminating | Exited.

Record child := mk_child {
  status : child_status;
  stdin_lines : list string;
  stdout_queue : list (string * Q);
  behaviour : list string -> string -> list (string * Q)
}.

Record OS := mk_os {
  children : list child;        (* indexed by pid *)
  listening : list Z            (* ports with a bound listener *)
}.

(** [web.AppRunner]: the ports of its started sites. *)
Record AppRunner := { sites : list Z }.

Record bridge := mk_bridge {
  config : AWSQMCPServerConfig;
  process : option nat;
  bridge_port : option Z;
  bridge_server : option AppRunner
}.

(** [__init__] *)
Definition init (server_config : AWSQMCPServerConfig) : bridge :=
  mk_bridge server_config None None None.

(** The state a bridge method runs on: the bridge object and the OS. *)
Definition st : Type := bridge * OS.

Definition set_process (v : option nat) (s : st) : st :=
  (mk_bridge (config (fst s)) v (bridge_port (fst s)) (bridge_server (fst s)),
   snd s).
Definition set_bridge_port (v : option Z) (s : st) : st :=
  (mk_bridge (config (fst s)) (process (fst s)) v (bridge_server (fst s)),
   snd s).
Definition set_bridge_server (v : option AppRunner) (s : st) : st :=
  (mk_bridge (config (fst s)) (process (fst s)) (bridge_port (fst s)) v,
   snd s).
Definition set_children (v : list child) (s : st) : st :=
  (fst s, mk_os v (listening (snd s))).
Definition set_listening (v : list Z) (s : st) : st :=
  (fst s, mk_os (children (snd s)) v).

Fixpoint update_nth {A} (n : nat) (f : A -> A) (l : list A) : list A :=
  match l, n with
  | [], _ => []
  | x :: r, O => f x :: r
  | x :: r, S n' => x :: update_nth n' f r
  end.

Definition set_status (v : child_status) (c : child) : child :=
  mk_child v (stdin_lines c) (stdout_queue c) (behaviour c).

Definition live (c : child) : bool :=
  match status c with Exited => false | _ => true end.

(** The children of the OS that have not exited. *)
Definition live_children (o : OS) : list child := filter live (children o).

Definition newline : string := String (ascii_of_N 10) EmptyString.

Local Open Scope py_scope.

Definition no_process {A} : Py st A :=
  raise (Exn AttributeError "'NoneType' object has no attribute 'stdin'").

(** [self.process.stdin.write(line)] followed by [drain()]: on a child
    that is gone the drain raises [ConnectionResetError]; otherwise the
    child receives the line and its answers are queued. *)
Definition stdin_write_drain (line : string) : Py st unit :=
  s <- get ;;
  match process (fst s) with
  | None => no_process
  | Some pid =>
      match nth_error (children (snd s)) pid with
      | None => raise (Exn ProcessLookupError "no such process")
      | Some c =>
          if live c then
            modify (set_children
                      (update_nth pid
                         (fun c => mk_child (status c)
                                     (stdin_lines c ++ [line])%list
                                     (stdout_queue c
                                        ++ behaviour c (stdin_lines c) line)%list
                                     (behaviour c))
                         (children (snd s))))
          else raise (Exn ConnectionResetError "Connection lost")
      end
  end.

(** Letting [t] seconds pass on the lines a child has still to deliver. *)
Definition age (t : Q) (queue : list (string * Q)) : list (string * Q) :=
  map (fun ld => (fst ld, if Qle_bool (snd ld) t then 0%Q else (snd ld - t)%Q))
      queue.

(** [await asyncio.wait_for(self.process.stdout.readline(), timeout)]:
    the next line if it arrives before [timeout] seconds have passed,
    the empty line at end of file, [TimeoutError] otherwise. *)
Definition wait_for_readline (timeout : Q) : Py st string :=
  s <- get ;;
  match process (fst s) with
  | None => no_process
  | Some pid =>
      match nth_error (children (snd s)) pid with
      | None => raise (Exn ProcessLookupError "no such process")
      | Some c =>
          match stdout_queue c with
          | (line, latency) :: rest =>
              if Qle_bool timeout latency then
                modify (set_children
                          (update_nth pid
                             (fun c => mk_child (status c) (stdin_lines c)
                                         (age timeout (stdout_queue c))
                                         (behaviour c))
                             (children (snd s)))) ;;;
                raise (Exn TimeoutError EmptyString)
              else
                modify (set_children
                          (update_nth pid
                             (fun c => mk_child (status c) (stdin_lines c)
                                         (age latency rest) (behaviour c))
                             (children (snd s)))) ;;;
                ret line
          | [] =>
              if live c then raise (Exn TimeoutError EmptyString)
              else ret EmptyString
          end
      end
  end.

(** [self.process.terminate()] *)
Definition terminate (pid : nat) : Py st unit :=
  s <- get ;;
  match nth_error (children (snd s)) pid with
  | Some c =>
      if live c then
        modify (set_children
                  (update_nth pid (set_status Terminating) (children (snd s))))
      else raise (Exn ProcessLookupError EmptyString)
  | None => raise (Exn ProcessLookupError EmptyString)
  end.

(** [await self.process.wait()]: returns once the child has exited. *)
Definition wait (pid : nat) : Py st unit :=
  s <- get ;;
  modify (set_children (update_nth pid (set_status Exited) (children (snd s)))).

(** [await self.bridge_server.cleanup()]: stops the runner's sites; a
    runner without sites has nothing to do. *)
Definition cleanup (runner : AppRunner) : Py st unit :=
  s <- get ;;
  modify (set_listening
            (filter (fun p => negb (existsb (Z.eqb p) (sites runner)))
                    (listening (snd s)))) ;;;
  modify (set_bridge_server (Some {| sites := [] |})).

(** *** What [start] asks of the outside *)
Record start_env := {
  environ : dict json;                          (* os.environ *)
  spawn : list json -> dict json ->
          res (list string -> string -> list (string * Q));
                                                (* create_subprocess_exec *)
  pick_port : res Z;                            (* bind(('', 0)), getsockname *)
  runner_setup : res unit;                      (* runner.setup() *)
  site_start : Z -> res unit                    (* TCPSite(...).start() *)
}.

(** [env.update(self.config.env)] for a truthy [config.env]. *)
Definition merge_env (environ : dict json) (extra : json) : res (dict json) :=
  if truthy extra then
    match extra with
    | JDict d => Ret (dupdate environ d)
    | _ => Raise (Exn TypeError "cannot convert dictionary update sequence")
    end
  else Ret environ.

(** [[self.config.command] + (self.config.args or [])] *)
Definition command_line (cfg : AWSQMCPServerConfig) : res (list json) :=
  if truthy (args cfg) then
    match args cfg with
    | JList l => Ret (command cfg :: l)
    | _ => Raise (Exn TypeError "can only concatenate list to list")
    end
  else Ret [command cfg].

Definition bridge_url (port : Z) : string :=
  "http://localhost:" ++ Codec.string_of_Z port.

Section Start.

Variable E : start_env.

(** [start]: the handler of its [try] logs and re-raises. *)
Definition start : Py st string :=
  try_except
    (s <- get ;;
     env <- lift (merge_env (environ E) (AWSQ.env (config (fst s)))) ;;
     cmd <- lift (command_line (config (fst s))) ;;
     react <- lift (spawn E cmd env) ;;
     s <- get ;;
     modify (set_children
               (children (snd s) ++ [mk_child Running [] [] react])%list) ;;;
     modify (set_process (Some (List.length (children (snd s))))) ;;;
     port <- lift (pick_port E) ;;
     modify (set_bridge_port (Some port)) ;;;
     lift (runner_setup E) ;;;
     lift (site_start E port) ;;;
     s <- get ;;
     modify (set_listening (listening (snd s) ++ [port])%list) ;;;
     modify (set_bridge_server (Some {| sites := [port] |})) ;;;
     ret (bridge_url port))
    (fun e => raise e).

End Start.

(** *** Request handling *)

Record web_response := json_response {
  response_data : json;
  response_status : Z
}.

(** The body text of a response made by [web.json_response]. *)
Definition response_text (r : web_response) : string :=
  Codec.dumps (response_data r).

(** [self.config.timeout / 1000.0]: seconds from milliseconds. *)
Definition timeout_seconds (timeout_ms : json) : res Q :=
  match timeout_ms with
  | JInt n => Ret (inject_Z n / inject_Z 1000)%Q
  | JBool b => Ret (inject_Z (if b then 1 else 0) / inject_Z 1000)%Q
  | _ => Raise (Exn TypeError "unsupported operand type(s) for /")
  end.

Definition timeout_error : json :=
  JDict [("error",
          JDict [("code", JInt (-32000)); ("message", JStr "Request timeout")])].

Definition internal_error (e : exn) : json :=
  JDict [("error",
          JDict [("code", JInt (-32603)); ("message", JStr (str_exn e))])].

(** The body of the [try] of [_handle_request]; [body] is the text of
    the HTTP request. *)
Definition forward (body : string) : Py st web_response :=
  data <- lift (Codec.loads body) ;;
  stdin_write_drain (Codec.dumps data ++ newline) ;;;
  s <- get ;;
  timeout <- lift (timeout_seconds (timeout (config (fst s)))) ;;
  response_line <- wait_for_readline timeout ;;
  response <- lift (Codec.loads response_line) ;;
  ret (json_response response 200).

Definition _handle_request (body : string) : Py st web_response :=
  try_except (forward body)
    (fun e =>
       if is_timeout e then ret (json_response timeout_error 504)
       else ret (json_response (internal_error e) 500)).

(** *** [stop] *)
Definition stop : Py st unit :=
  s <- get ;;
  (match process (fst s) with
   | Some pid => terminate pid ;;; wait pid
   | None => ret tt
   end) ;;;
  s <- get ;;
  match bridge_server (fst s) with
  | Some runner => cleanup runner
  | None => ret tt
  end.

End STDIOBridge.

(* ===================================================================== *)
(** ** Vocabulary of the properties and concrete inputs *)
(* ===================================================================== *)

Module Props.

Import MCPClient.

(** The ways a request can fail below the JSON-RPC level: the post raises
    (network error, timeout), the status is not 200, the body does not
    decode, or the decoded object has no [result] key. *)
Inductive transport_failure : post_outcome -> Prop :=
| tf_raises e : transport_failure (PostRaises e)
| tf_status status body :
    status <> 200 -> transport_failure (PostResponse status body)
| tf_body e : transport_failure (PostResponse 200 (Raise e))
| tf_no_result d :
    dmem "result" d = false ->
    transport_failure (PostResponse 200 (Ret (JDict d))).

(** The value [_send_request] returns, read off the network's answer to
    the request numbered [_request_id + 1]. *)
Definition reply_of (net : transport) (method : string) (params : json)
           (c : client) : json :=
  match session c with
  | None => JNull
  | Some _ =>
      match net (endpoint c) (make_request (_request_id c + 1) method params) with
      | PostRaises _ => JNull
      | PostResponse status body =>
          if status =? 200
          then match body with Ret v => v | Raise _ => JNull end
          else JNull
      end
  end.

(** The client on which [connect] issues its request: the session is
    created when absent. *)
Definition with_session (settings : Settings) (c : client) : client :=
  match session c with
  | None =>
      set_session (Some {| timeout_total := MCP_TIMEOUT_SECONDS settings |}) c
  | Some _ => c
  end.

(** The initialize handshake of [c] succeeds on [net]: its request gets
    status 200 and an object with a dict under [result]. *)
Definition handshake_ok (net : transport) (c : client) : Prop :=
  exists d r,
    net (endpoint c)
        (make_request (_request_id c + 1) "initialize" initialize_params)
    = PostResponse 200 (Ret (JDict d))
    /\ dget "result" d = Some (JDict r).

(** A peer that answers every request with an empty result object. *)
Definition stub_net : transport :=
  fun _ _ => PostResponse 200 (Ret (JDict [("result", JDict [])])).

(** A peer that refuses every connection. *)
Definition dead_net : transport :=
  fun _ _ => PostRaises (Exn ClientError "Cannot connect to host").

(** A peer that answers the handshake and nothing else. *)
Definition handshake_only_net : transport :=
  fun _ request =>
    match py_getitem request "method" with
    | Ret (JStr "initialize") =>
        PostResponse 200 (Ret (JDict [("result", JDict [])]))
    | _ => PostRaises (Exn TimeoutError "timed out")
    end.

(** A client as [add_server] registers it on [stub_net]. *)
Definition connected_client (server_id : string) : client :=
  snd (connect default_settings stub_net
               (init server_id "http://localhost:9000" server_id)).

(** The entry a client contributes to [get_all_resources]: what its
    [list_resources] returns when it is flagged connected, nothing
    otherwise. *)
Definition resource_entry (settings : Settings) (net : transport)
           (c : client) : option json :=
  if is_connected c then
    match fst (list_resources settings net c) with
    | Ret v => Some v
    | Raise _ => None
    end
  else None.

(** The dict the loop of [get_all_resources] builds when no call raises. *)
Fixpoint collect (settings : Settings) (net : transport)
         (items : list (string * client)) (resources : dict json) : dict json :=
  match items with
  | [] => resources
  | (server_id, c) :: rest =>
      collect settings net rest
              (match resource_entry settings net c with
               | Some v => dset server_id v resources
               | None => resources
               end)
  end.

(** The descriptors of the entries that parse, in the order of the
    entries. *)
Fixpoint parsed (entries : list (string * json))
  : dict AWSQ.AWSQMCPServerConfig :=
  match entries with
  | [] => []
  | (server_name, server_config) :: rest =>
      match AWSQ.from_dict server_name server_config with
      | Ret cfg => (server_name, cfg) :: parsed rest
      | Raise _ => parsed rest
      end
  end.

(** A configuration as [json.load] hands it to [extract_mcp_servers]: a
    dict whose [mcpServers], when present, is a dict; the keys of a dict
    are distinct. *)
Definition well_shaped (config : json) : Prop :=
  exists top,
    config = JDict top
    /\ match dget "mcpServers" top with
       | None => True
       | Some (JDict entries) => NoDup (dkeys entries)
       | Some _ => False
       end.

Definition entry_count (config : json) : nat :=
  List.length (AWSQ.entries_of config).

Definition malformed_count (config : json) : nat :=
  List.length (filter AWSQ.malformed (AWSQ.entries_of config)).

(** Two configuration files: three servers, one of them malformed, and
    two servers, one of them malformed. *)
Definition example_configs : list json :=
  [JDict [("name", JStr "dev");
          ("mcpServers",
           JDict [("fs", JDict [("command", JStr "npx");
                                ("args", JList [JStr "fs-server"])]);
                  ("web", JDict [("type", JStr "http");
                                 ("url", JStr "http://localhost:7000")]);
                  ("bad", JStr "oops")])];
   JDict [("name", JStr "ops");
          ("mcpServers",
           JDict [("db", JDict [("command", JStr "db-server");
                                ("timeout", JInt 5000)]);
                  ("broken", JInt 7)])]].

(** Vocabulary for runs of concurrent [add_server] calls. *)
Definition is_connecting (t : MCPManager.task) : bool :=
  match t with MCPManager.Connecting _ _ => true | _ => false end.

Definition task_id (t : MCPManager.task) : string :=
  match t with
  | MCPManager.Waiting sid _ _ => sid
  | MCPManager.Connecting sid _ => sid
  | MCPManager.Done sid _ => sid
  end.

Definition count_connecting (tasks : list MCPManager.task) : nat :=
  List.length (filter is_connecting tasks).

Definition call_id (call : string * string * string) : string :=
  fst (fst call).

(** What holds of the manager at every moment of a run: the map is
    within the limit, the lock is held exactly while one call is
    suspended in its connect, and that call has passed both guards on the
    map as it still is. *)
Definition limit_inv (settings : Settings) (s : MCPManager.system) : Prop :=
  dlen (MCPManager.sys_clients s) <= MAX_MCP_CONNECTIONS settings
  /\ count_connecting (MCPManager.sys_tasks s)
     = (if MCPManager.sys_locked s then 1 else 0)%nat
  /\ (forall sid c,
        In (MCPManager.Connecting sid c) (MCPManager.sys_tasks s) ->
        dmem sid (MCPManager.sys_clients s) = false
        /\ dlen (MCPManager.sys_clients s) < MAX_MCP_CONNECTIONS settings).

(** What holds in addition when the calls have distinct ids, start from
    an empty map and every connect succeeds: the keys of the map are the
    ids of the calls that returned true, and a call returned false only
    with the map full. *)
Definition scenario_inv (settings : Settings) (s : MCPManager.system) : Prop :=
  NoDup (map task_id (MCPManager.sys_tasks s))
  /\ (forall k, dmem k (MCPManager.sys_clients s) = true ->
                In (MCPManager.Done k (Ret true)) (MCPManager.sys_tasks s))
  /\ List.length (MCPManager.sys_clients s) = MCPManager.count_returned true s
  /\ (forall sid r,
        In (MCPManager.Done sid r) (MCPManager.sys_tasks s) ->
        r = Ret true
        \/ (r = Ret false
            /\ MAX_MCP_CONNECTIONS settings <= dlen (MCPManager.sys_clients s))).

(** A network on which the handshake of every client succeeds. *)
Definition always_connects (settings : Settings) (net : transport) : Prop :=
  forall c, fst (connect settings net c) = Ret true.

(** Five calls with distinct ids. *)
Definition five_calls : list (string * string * string) :=
  [("s1", "http://localhost:9001", "one");
   ("s2", "http://localhost:9002", "two");
   ("s3", "http://localhost:9003", "three");
   ("s4", "http://localhost:9004", "four");
   ("s5", "http://localhost:9005", "five")].

(** A peer whose every answer is the JSON number 5. *)
Definition number_net : transport :=
  fun _ _ => PostResponse 200 (Ret (JInt 5)).

(** Replaces every apostrophe by a double quote, to write JSON text. *)
Fixpoint dq (s : string) : string :=
  match s with
  | EmptyString => EmptyString
  | String c r =>
      String (if (N_of_ascii c =? 39)%N then Codec.dquote else c) (dq r)
  end.

End Props.
Import Props.

Module BridgeProps.

Import AWSQ STDIOBridge.

(** A method left the resources of the bridge as they were: the same
    handles in the bridge object, the same listeners, and the same
    children in the same states (none spawned, none ended). *)
Definition same_resources (s s' : st) : Prop :=
  fst s' = fst s
  /\ listening (snd s') = listening (snd s)
  /\ map status (children (snd s')) = map status (children (snd s)).

(** A text without a newline character: it is one line. *)
Fixpoint one_line (s : string) : bool :=
  match s with
  | EmptyString => true
  | String c r => negb (N_of_ascii c =? 10)%N && one_line r
  end.

(** A method keeps a relation between the state it finds and the state
    it leaves. *)
Definition preserves {A} (R : st -> st -> Prop) (m : Py st A) : Prop :=
  forall s, R s (snd (m s)).

(** What [stdin_write_drain] does to the child that receives [line]. *)
Definition receive (line : string) (c : child) : child :=
  mk_child (status c) (stdin_lines c ++ [line])%list
           (stdout_queue c ++ behaviour c (stdin_lines c) line)%list
           (behaviour c).

(** The rest of [forward] once the request is on the child's stdin. *)
Definition read_response (timeout : Q) : Py st web_response :=
  bind (wait_for_readline timeout)
       (fun response_line =>
          bind (lift (Codec.loads response_line))
               (fun response => ret (json_response response 200))).

(** No line of [queue] arrives before [timeout] seconds have passed. *)
Definition no_line_within (timeout : Q) (queue : list (string * Q)) : Prop :=
  match queue with
  | [] => True
  | (_, latency) :: _ => Qle_bool timeout latency = true
  end.

(** A subprocess that answers each request line at once with a response
    carrying the request's [id] and, as [result], the request's
    [params]. *)
Definition echo : list string -> string -> list (string * Q) :=
  fun _ line =>
    match Codec.loads line with
    | Ret request =>
        match py_get request "id" JNull, py_get request "params" JNull with
        | Ret id, Ret params =>
            [((Codec.dumps (JDict [("jsonrpc", JStr "2.0"); ("id", id);
                                   ("result", params)]) ++ newline)%string,
              0%Q)]
        | _, _ => []
        end
    | Raise _ => []
    end.

(** A subprocess that never writes to its stdout. *)
Definition silent : list string -> string -> list (string * Q) :=
  fun _ _ => [].

(** A subprocess that answers after five seconds. *)
Definition slow : list string -> string -> list (string * Q) :=
  fun _ line => [(line, 5%Q)].

Definition fs_config : AWSQMCPServerConfig :=
  mk_config "fs" STDIO (JStr "npx") (JList [JStr "fs-server"]) (JDict [])
            (JInt 30000) JNull (JDict []) JNull JNull JNull.

Definition quick_config : AWSQMCPServerConfig :=
  mk_config "fs" STDIO (JStr "npx") (JList [JStr "fs-server"]) (JDict [])
            (JInt 2000) JNull (JDict []) JNull JNull JNull.

(** An outside where everything [start] asks for succeeds. *)
Definition good_env (react : list string -> string -> list (string * Q))
  : start_env :=
  {| environ := [("PATH", JStr "/usr/bin")];
     spawn := fun _ _ => Ret react;
     pick_port := Ret 40001;
     runner_setup := Ret tt;
     site_start := fun _ => Ret tt |}.

(** An outside where the command is not found. *)
Definition no_command_env : start_env :=
  {| environ := [("PATH", JStr "/usr/bin")];
     spawn := fun _ _ => Raise (Exn FileNotFoundError "No such file or directory");
     pick_port := Ret 40001;
     runner_setup := Ret tt;
     site_start := fun _ => Ret tt |}.

(** An outside where the subprocess starts and the listener cannot bind. *)
Definition bind_fails_env : start_env :=
  {| environ := [("PATH", JStr "/usr/bin")];
     spawn := fun _ _ => Ret silent;
     pick_port := Ret 40001;
     runner_setup := Ret tt;
     site_start := fun _ => Raise (Exn OSError "address already in use") |}.

Definition empty_os : OS := mk_os [] [].

(** A bridge as [start] leaves it on [good_env]. *)
Definition started (cfg : AWSQMCPServerConfig)
           (react : list string -> string -> list (string * Q)) : st :=
  snd (start (good_env react) (STDIOBridge.init cfg, empty_os)).

(** The request of the round-trip property. *)
Definition round_trip_request : string :=
  dq "{'jsonrpc':'2.0','id':1,'method':'x','params':{'a':1}}".

Definition round_trip_response : json :=
  JDict [("jsonrpc", JStr "2.0"); ("id", JInt 1);
         ("result", JDict [("a", JInt 1)])].

End BridgeProps.
Import BridgeProps.

(* ===================================================================== *)
(** ** The other query methods of [MCPClient] *)
(* ===================================================================== *)

Module ClientQueries.

Import MCPClient.

Section WithNetwork.

Variable settings : Settings.
Variable net : transport.

Local Open Scope py_scope.

Definition read_resource (resource_uri : string) : Py client json :=
  ensure_connected settings net ;;;
  response <- _send_request net "resources/read"
                (JDict [("uri", JStr resource_uri)]) ;;
  ok <- lift (has_result response) ;;
  if ok : bool then lift (py_getitem response "result") else ret JNull.

Definition list_prompts : Py client json :=
  ensure_connected settings net ;;;
  response <- _send_request net "prompts/list" JNull ;;
  ok <- lift (has_result response) ;;
  if ok : bool then
    result <- lift (py_getitem response "result") ;;
    lift (py_get result "prompts" (JList []))
  else ret (JList []).

(** [if messages:] followed by [messages[0]]: nothing when [messages]
    is falsy, else the outcome of the subscript with the int 0. *)
Definition first_message (messages : json) : option (res json) :=
  match messages with
  | JList (m :: _) => Some (Ret m)
  | JStr (String c _) => Some (Ret (JStr (String c EmptyString)))
  | JDict (_ :: _) => Some (Raise (Exn KeyError "0"))
  | JInt n =>
      if n =? 0 then None
      else Some (Raise (Exn TypeError "'int' object is not subscriptable"))
  | JBool true =>
      Some (Raise (Exn TypeError "'bool' object is not subscriptable"))
  | _ => None
  end.

Definition get_prompt_params (prompt_name : string) (arguments : json) : json :=
  JDict [("name", JStr prompt_name); ("arguments", or_empty_dict arguments)].

Definition get_prompt (prompt_name : string) (arguments : json)
  : Py client json :=
  ensure_connected settings net ;;;
  response <- _send_request net "prompts/get"
                (get_prompt_params prompt_name arguments) ;;
  ok <- lift (has_result response) ;;
  if ok : bool then
    result <- lift (py_getitem response "result") ;;
    messages <- lift (py_get result "messages" (JList [])) ;;
    match first_message messages with
    | Some first =>
        message <- lift first ;;
        content <- lift (py_get message "content" (JDict [])) ;;
        lift (py_get content "text" (JStr EmptyString))
    | None => ret JNull
    end
  else ret JNull.

End WithNetwork.

End ClientQueries.

(* ===================================================================== *)
(** ** The other methods of [MCPManager] *)
(* ===================================================================== *)

Module ManagerOps.

Import MCPClient MCPManager.

Section WithNetwork.

Variable settings : Settings.
Variable net : transport.

(** The loop of [health_check_all] over [self.clients.items()]. *)
Fixpoint health_check_loop (items : list (string * client))
         (results : dict bool) : Py clients_t (dict bool) :=
  match items with
  | [] => ret results
  | (server_id, c) :: rest =>
      fun clients =>
        match health_check net c with
        | (Ret b, c') =>
            health_check_loop rest (dset server_id b results)
                              (dset server_id c' clients)
        | (Raise e, c') => (Raise e, dset server_id c' clients)
        end
  end.

Definition health_check_all : Py clients_t (dict bool) :=
  fun clients => health_check_loop clients [] clients.

(** The loop of [shutdown] over [self.clients.values()]. *)
Fixpoint shutdown_loop (items : list (string * client)) : Py clients_t unit :=
  match items with
  | [] => ret tt
  | (server_id, c) :: rest =>
      fun clients =>
        match disconnect c with
        | (Ret _, c') => shutdown_loop rest (dset server_id c' clients)
        | (Raise e, c') => (Raise e, dset server_id c' clients)
        end
  end.

(** [shutdown]: disconnect every client, then [self.clients.clear()]. *)
Definition shutdown : Py clients_t unit :=
  fun clients =>
    match shutdown_loop clients clients with
    | (Ret _, _) => (Ret tt, [])
    | (Raise e, clients') => (Raise e, clients')
    end.

End WithNetwork.

End ManagerOps.

(* ===================================================================== *)
(** ** [AWSQConfigLoader.load_configuration] *)
(* ===================================================================== *)

Module ConfigLoader.

(** [load_configuration]; [file] is what [open] and [json.load] give for
    the path, a value or a raised error.  Every exception, that of a
    [config.get] on a value that is no dict included, is logged and
    turned into [None]. *)
Definition load_configuration (file : res json) : json :=
  match file with
  | Raise _ => JNull
  | Ret config =>
      match py_get config "name" JNull with
      | Raise _ => JNull
      | Ret name => if truthy name then config else JNull
      end
  end.

End ConfigLoader.

(* ===================================================================== *)
(** ** Vocabulary of the further properties *)
(* ===================================================================== *)

Module MoreProps.

Import MCPClient.

(** A computation that leaves the object as it found it. *)
Definition pure {S A} (m : Py S A) : Prop := forall s, snd (m s) = s.

(** A peer on which every request of [c] fails below JSON-RPC. *)
Definition failing_peer (net : transport) (c : client) : Prop :=
  forall request, transport_failure (net (endpoint c) request).

(** The client as the lazy reconnect at the head of a query leaves it. *)
Definition ensured (settings : Settings) (net : transport) (c : client)
  : client :=
  if is_connected c then c else snd (connect settings net c).

(** A query method: the lazy reconnect, one request, and a reading of
    the reply that does not touch the client. *)
Definition query {A} (settings : Settings) (net : transport)
           (method : string) (params : json) (rest : json -> Py client A)
  : Py client A :=
  bind (ensure_connected settings net)
       (fun _ => bind (_send_request net method params) rest).

(** What [health_check] reports for a client. *)
Definition healthy (net : transport) (c : client) : bool :=
  match fst (health_check net c) with
  | Ret b => b
  | Raise _ => false
  end.

(** Applying [f] to every value of a dict, keys and order kept. *)
Definition dmap {V W} (f : V -> W) (d : dict V) : dict W :=
  map (fun kv => (fst kv, f (snd kv))) d.

End MoreProps.
Import MoreProps.

(* ===================================================================== *)
(** ** [AWSQMCPManager.shutdown] *)
(* ===================================================================== *)

Module AWSQManager.

Import STDIOBridge.

(** The fields of an [AWSQMCPManager]: the clients of the parent class,
    the bridges and the descriptors, each dict keyed by server name. *)
Record manager := mk_manager {
  clients : MCPManager.clients_t;
  stdio_bridges : dict bridge;
  awsq_configs : dict AWSQ.AWSQMCPServerConfig
}.

(** The loop of [shutdown] over [self.stdio_bridges.values()]; the
    bridges all live on one OS. *)
Fixpoint stop_loop (items : list (string * bridge))
  : Py (dict bridge * OS) unit :=
  match items with
  | [] => ret tt
  | (name, b) :: rest =>
      fun s =>
        match stop (b, snd s) with
        | (Ret _, (b', o')) => stop_loop rest (dset name b' (fst s), o')
        | (Raise e, (b', o')) => (Raise e, (dset name b' (fst s), o'))
        end
  end.

(** [shutdown]: stop every bridge, [self.stdio_bridges.clear()], then
    the [shutdown] of [MCPManager]. *)
Definition shutdown : Py (manager * OS) unit :=
  fun s =>
    let m := fst s in
    match stop_loop (stdio_bridges m) (stdio_bridges m, snd s) with
    | (Raise e, (bridges', o')) =>
        (Raise e, (mk_manager (clients m) bridges' (awsq_configs m), o'))
    | (Ret _, (_, o')) =>
        match ManagerOps.shutdown (clients m) with
        | (Ret _, clients') =>
            (Ret tt, (mk_manager clients' [] (awsq_configs m), o'))
        | (Raise e, clients') =>
            (Raise e, (mk_manager clients' [] (awsq_configs m), o'))
        end
    end.

(** The subprocess of the bridge is a child of [o] that has not exited. *)
Definition runs_on (o : OS) (b : bridge) : Prop :=
  exists pid c,
    process b = Some pid
    /\ nth_error (children o) pid = Some c
    /\ live c = true.

(** The subprocess of the bridge is a child of [o] that has exited. *)
Definition exited_on (o : OS) (b : bridge) : Prop :=
  exists pid c,
    process b = Some pid
    /\ nth_error (children o) pid = Some c
    /\ live c = false.

End AWSQManager.

(* ===================================================================== *)
(** ** Facts about dicts *)
(* ===================================================================== *)

Section DictFacts.

Context {V : Type}.
Implicit Types (d : dict V) (k : string) (v : V).

Lemma dget_dset_eq k v d : dget k (dset k v d) = Some v.
Proof.
  induction d as [|[k' v'] r IH]; simpl.
  - now rewrite String.eqb_refl.
  - destruct (String.eqb k k') eqn:E; simpl; rewrite E; auto.
Qed.

Lemma dget_dset_ne k k' v d : k <> k' -> dget k' (dset k v d) = dget k' d.
Proof.
  intros Hne. induction d as [|[k0 v0] r IH]; simpl.
  - destruct (String.eqb k' k) eqn:E; auto.
    apply String.eqb_eq in E. congruence.
  - destruct (String.eqb k k0) eqn:E; simpl.
    + apply String.eqb_eq in E. subst k0.
      destruct (String.eqb k' k) eqn:E'; auto.
      apply String.eqb_eq in E'. congruence.
    + now rewrite IH.
Qed.

Lemma dmem_In k d : dmem k d = true <-> In k (dkeys d).
Proof.
  unfold dmem, dkeys. induction d as [|[k' v'] r IH]; simpl.
  - split; [discriminate | tauto].
  - destruct (String.eqb k k') eqn:E.
    + apply String.eqb_eq in E. subst. tauto.
    + apply String.eqb_neq in E. rewrite IH. split; [tauto|].
      intros [H|H]; congruence.
Qed.

Lemma dmem_false_not_In k d : dmem k d = false <-> ~ In k (dkeys d).
Proof.
  rewrite <- dmem_In. destruct (dmem k d); split; congruence.
Qed.

Lemma length_dset k v d :
  List.length (dset k v d)
  = if dmem k d then List.length d else S (List.length d).
Proof.
  unfold dmem. induction d as [|[k' v'] r IH]; simpl; auto.
  destruct (String.eqb k k') eqn:E; simpl; auto.
  rewrite IH. now destruct (dget k r).
Qed.

Lemma dset_fresh k v d : dmem k d = false -> dset k v d = (d ++ [(k, v)])%list.
Proof.
  unfold dmem. induction d as [|[k' v'] r IH]; simpl; auto.
  destruct (String.eqb k k') eqn:E; [discriminate|].
  intros H. now rewrite IH.
Qed.

Lemma dmem_dset k k' v d :
  dmem k' (dset k v d) = (String.eqb k k' || dmem k' d)%bool.
Proof.
  destruct (String.eqb k k') eqn:E; simpl.
  - apply String.eqb_eq in E. subst. unfold dmem. now rewrite dget_dset_eq.
  - apply String.eqb_neq in E. unfold dmem. now rewrite dget_dset_ne.
Qed.

Lemma dget_In k v d : NoDup (dkeys d) -> In (k, v) d -> dget k d = Some v.
Proof.
  unfold dkeys. induction d as [|[k' v'] r IH]; simpl; [tauto|].
  intros Hnd [H|H].
  - inversion H; subst. now rewrite String.eqb_refl.
  - inversion Hnd as [|? ? Hnot Hnd']; subst.
    destruct (String.eqb k k') eqn:E.
    + apply String.eqb_eq in E. subst k'. exfalso. apply Hnot.
      change k with (fst (k, v)). now apply in_map.
    + auto.
Qed.

Lemma dget_Some_In k v d : dget k d = Some v -> In (k, v) d.
Proof.
  induction d as [|[k' v'] r IH]; simpl; [discriminate|].
  destruct (String.eqb k k') eqn:E.
  - apply String.eqb_eq in E. intros [= ->]. subst. auto.
  - auto.
Qed.

Lemma dget_app_fresh k d1 d2 :
  dmem k d1 = false -> dget k (d1 ++ d2)%list = dget k d2.
Proof.
  unfold dmem. induction d1 as [|[k' v'] r IH]; simpl; auto.
  destruct (String.eqb k k'); [discriminate | auto].
Qed.

Lemma dget_app_found k d1 d2 v :
  dget k d1 = Some v -> dget k (d1 ++ d2)%list = Some v.
Proof.
  induction d1 as [|[k' v'] r IH]; simpl; [discriminate|].
  destruct (String.eqb k k'); auto.
Qed.

End DictFacts.

(* ===================================================================== *)
(** ** Facts about [MCPClient] *)
(* ===================================================================== *)

Section ClientFacts.

Import MCPClient.

Variable settings : Settings.
Variable net : transport.

(** [_send_request] never raises; it bumps the request id and touches
    nothing else. *)
Lemma send_request_eq method params c :
  _send_request net method params c
  = (Ret (reply_of net method params c), set_request_id (_request_id c + 1) c).
Proof.
  unfold _send_request, reply_of, bind, modify, get, try_except, raise, ret, lift.
  simpl. destruct (session c); simpl; auto.
  destruct (net _ _) as [e|status body]; simpl.
  - now destruct (is_timeout e).
  - destruct (status =? 200); simpl; auto.
    destruct body as [v|e]; simpl; auto. now destruct (is_timeout e).
Qed.

(** [connect], case by case on the handshake reply. *)
Lemma connect_eq c :
  connect settings net c
  = let c1 := with_session settings c in
    let response := reply_of net "initialize" initialize_params c1 in
    let c2 := set_request_id (_request_id c + 1) c1 in
    match has_result response with
    | Ret true =>
        match py_getitem response "result" with
        | Ret result =>
            match py_get result "capabilities" (JDict []) with
            | Ret caps =>
                (Ret true, set_is_connected true (set_capabilities caps c2))
            | Raise _ => (Ret false, set_is_connected false c2)
            end
        | Raise _ => (Ret false, set_is_connected false c2)
        end
    | Ret false => (Ret false, c2)
    | Raise _ => (Ret false, set_is_connected false c2)
    end.
Proof.
  unfold connect, with_session.
  unfold bind at 1. unfold try_except. unfold bind at 1. unfold get at 1.
  destruct (session c) eqn:Hs.
  - unfold bind at 1. unfold ret at 1. unfold bind at 1.
    rewrite send_request_eq. cbv zeta.
    unfold bind at 1, lift at 1.
    destruct (has_result _) as [[|]|e]; simpl; auto.
    unfold bind, lift.
    destruct (py_getitem _ _) as [result|e]; simpl; auto.
    destruct (py_get _ _ _) as [caps|e]; simpl; auto.
  - unfold bind at 1. unfold modify at 1. unfold bind at 1.
    rewrite send_request_eq. cbv zeta.
    unfold bind at 1, lift at 1.
    destruct (has_result _) as [[|]|e]; simpl; auto.
    unfold bind, lift.
    destruct (py_getitem _ _) as [result|e]; simpl; auto.
    destruct (py_get _ _ _) as [caps|e]; simpl; auto.
Qed.

Lemma connect_returns c : exists b, fst (connect settings net c) = Ret b.
Proof.
  rewrite connect_eq. cbv zeta.
  destruct (has_result _) as [[|]|e]; simpl; eauto.
  destruct (py_getitem _ _) as [result|e]; simpl; eauto.
  destruct (py_get _ _ _) as [caps|e]; simpl; eauto.
Qed.

Lemma with_session_endpoint c : endpoint (with_session settings c) = endpoint c.
Proof. unfold with_session. now destruct (session c). Qed.

Lemma connect_endpoint c : endpoint (snd (connect settings net c)) = endpoint c.
Proof.
  rewrite connect_eq. cbv zeta.
  destruct (has_result _) as [[|]|e]; simpl; try apply with_session_endpoint.
  destruct (py_getitem _ _) as [result|e]; simpl; try apply with_session_endpoint.
  destruct (py_get _ _ _) as [caps|e]; simpl; apply with_session_endpoint.
Qed.

Lemma ensure_connected_eq c :
  ensure_connected settings net c
  = (Ret tt, if is_connected c then c else snd (connect settings net c)).
Proof.
  unfold ensure_connected, bind, get, ret.
  destruct (is_connected c); auto.
  destruct (connect_returns c) as [b Hb].
  destruct (connect settings net c) as [r c']. simpl in *. now subst.
Qed.

(** The client as it stands after the lazy reconnect of a method. *)
Lemma ensured_endpoint c :
  endpoint (if is_connected c then c else snd (connect settings net c))
  = endpoint c.
Proof. destruct (is_connected c); auto using connect_endpoint. Qed.

(** A request that fails below the JSON-RPC level yields a reply without
    a usable [result]. *)
Lemma failed_reply_has_no_result method params c :
  transport_failure
    (net (endpoint c) (make_request (_request_id c + 1) method params)) ->
  has_result (reply_of net method params c) = Ret false.
Proof.
  unfold reply_of. intros H. destruct (session c); auto.
  inversion H as [e He|status body Hne He|e He|d Hd He]; simpl; auto.
  - destruct (status =? 200) eqn:E; auto. apply Z.eqb_eq in E. contradiction.
  - unfold has_result. simpl. destruct d; auto. simpl. now rewrite Hd.
Qed.

Lemma call_tool_eq tool_name arguments c :
  call_tool settings net tool_name arguments c
  = let c1 := if is_connected c then c else snd (connect settings net c) in
    let response :=
      reply_of net "tools/call" (call_tool_params tool_name arguments) c1 in
    let c2 := set_request_id (_request_id c1 + 1) c1 in
    match has_result response with
    | Ret true => (py_getitem response "result", c2)
    | Ret false => (Ret JNull, c2)
    | Raise e => (Raise e, c2)
    end.
Proof.
  unfold call_tool. unfold bind at 1. rewrite ensure_connected_eq.
  unfold bind at 1. rewrite send_request_eq. cbv zeta.
  unfold bind, lift, ret.
  destruct (has_result _) as [[|]|e]; auto.
Qed.

Lemma list_resources_eq c :
  list_resources settings net c
  = let c1 := if is_connected c then c else snd (connect settings net c) in
    let response := reply_of net "resources/list" JNull c1 in
    let c2 := set_request_id (_request_id c1 + 1) c1 in
    match has_result response with
    | Ret true =>
        match py_getitem response "result" with
        | Ret result => (py_get result "resources" (JList []), c2)
        | Raise e => (Raise e, c2)
        end
    | Ret false => (Ret (JList []), c2)
    | Raise e => (Raise e, c2)
    end.
Proof.
  unfold list_resources. unfold bind at 1. rewrite ensure_connected_eq.
  unfold bind at 1. rewrite send_request_eq. cbv zeta.
  unfold bind, lift, ret.
  destruct (has_result _) as [[|]|e]; auto.
Qed.

End ClientFacts.

(* ===================================================================== *)
(** ** [MCPManager.execute_tool] *)
(* ===================================================================== *)

Section ExecuteTool.

Import MCPClient MCPManager.

Variable settings : Settings.
Variable net : transport.

(** C2.  For a server id that is not a key of the connection map,
    [execute_tool] returns the dict [{success: false, error: "Server not
    found"}]: it returns, it does not raise, and it leaves the map as it
    was, whatever the tool name and the arguments. *)
Theorem execute_tool_unknown_server
        (clients : clients_t) (server_id tool_name : string) (arguments : json) :
  dmem server_id clients = false ->
  execute_tool settings net server_id tool_name arguments clients
  = (Ret (JDict [("success", JBool false); ("error", JStr "Server not found")]),
     clients).
Proof.
  unfold dmem, execute_tool. intros H.
  destruct (dget server_id clients); [discriminate | reflexivity].
Qed.

(** What [call_tool] returns when its request fails below JSON-RPC. *)
Lemma call_tool_transport_failure tool_name arguments c :
  (forall n, transport_failure
               (net (endpoint c)
                    (make_request n "tools/call"
                                  (call_tool_params tool_name arguments)))) ->
  fst (call_tool settings net tool_name arguments c) = Ret JNull.
Proof.
  intros Hfail. rewrite call_tool_eq. cbv zeta.
  rewrite failed_reply_has_no_result; [reflexivity|].
  rewrite ensured_endpoint. apply Hfail.
Qed.

(** C10.  For a registered server, a failure of the [tools/call] request
    below the JSON-RPC level (the post raises or times out, the status
    is not 200, the body does not decode, the object has no [result]) is
    swallowed by [_send_request] and [call_tool]: [execute_tool] reports
    [{success: true, result: null}], and its handler for exceptions is
    not reached. *)
Theorem execute_tool_swallows_transport_failure
        (clients : clients_t) (server_id tool_name : string) (arguments : json)
        (c : client) :
  dget server_id clients = Some c ->
  (forall n, transport_failure
               (net (endpoint c)
                    (make_request n "tools/call"
                                  (call_tool_params tool_name arguments)))) ->
  fst (execute_tool settings net server_id tool_name arguments clients)
  = Ret (JDict [("success", JBool true); ("result", JNull)]).
Proof.
  intros Hc Hfail. unfold execute_tool. rewrite Hc.
  unfold execute_tool_on. unfold bind at 1. rewrite ensure_connected_eq.
  unfold try_except. unfold bind at 1.
  pose proof (call_tool_transport_failure tool_name arguments
                (if is_connected c then c else snd (connect settings net c)))
    as Hcall.
  rewrite ensured_endpoint in Hcall. specialize (Hcall Hfail).
  destruct (call_tool settings net tool_name arguments _) as [r c'].
  simpl in Hcall. subst r. reflexivity.
Qed.

End ExecuteTool.

(** C2 at a manager that knows [alpha], asked for [beta]. *)
Lemma execute_tool_unknown_server_witness :
  MCPManager.execute_tool default_settings stub_net "beta" "search"
    (JDict [("q", JStr "x")]) [("alpha", connected_client "alpha")]
  = (Ret (JDict [("success", JBool false); ("error", JStr "Server not found")]),
     [("alpha", connected_client "alpha")]).
Proof.
  apply (execute_tool_unknown_server default_settings stub_net
           [("alpha", connected_client "alpha")] "beta" "search"
           (JDict [("q", JStr "x")])).
  reflexivity.
Defined.

(** C10 at a manager whose only server has stopped answering. *)
Lemma execute_tool_swallows_transport_failure_witness :
  fst (MCPManager.execute_tool default_settings dead_net "alpha" "search"
         (JDict [("q", JStr "x")]) [("alpha", connected_client "alpha")])
  = Ret (JDict [("success", JBool true); ("result", JNull)]).
Proof.
  apply (execute_tool_swallows_transport_failure default_settings dead_net
           [("alpha", connected_client "alpha")] "alpha" "search"
           (JDict [("q", JStr "x")]) (connected_client "alpha")).
  - reflexivity.
  - intros n. apply tf_raises.
Defined.

(* ===================================================================== *)
(** ** The [is_connected] flag of a client *)
(* ===================================================================== *)

Section ConnectedFlag.

Import MCPClient.

Variable settings : Settings.
Variable net : transport.

Lemma with_session_id c :
  _request_id (with_session settings c) = _request_id c.
Proof. unfold with_session. now destruct (session c). Qed.

Lemma with_session_connected c :
  is_connected (with_session settings c) = is_connected c.
Proof. unfold with_session. now destruct (session c). Qed.

Lemma with_session_has_session c :
  exists s, session (with_session settings c) = Some s.
Proof. unfold with_session. destruct (session c) eqn:E; simpl; eauto. Qed.

(** A reply with a usable [result] can only come from a 200 response
    whose body decoded. *)
Lemma has_result_reply method params c :
  has_result (reply_of net method params c) = Ret true ->
  exists response,
    net (endpoint c) (make_request (_request_id c + 1) method params)
    = PostResponse 200 (Ret response)
    /\ has_result response = Ret true.
Proof.
  unfold reply_of. destruct (session c); [|discriminate].
  destruct (net _ _) as [e|status body]; [discriminate|].
  destruct (status =? 200) eqn:E; [|discriminate].
  apply Z.eqb_eq in E. subst status.
  destruct body as [v|e]; [|discriminate]. eauto.
Qed.

(** [connect] raises the flag only on an answered handshake. *)
Lemma connect_sets_flag_only_on_handshake c :
  is_connected c = false ->
  is_connected (snd (connect settings net c)) = true ->
  fst (connect settings net c) = Ret true
  /\ exists response,
      net (endpoint c)
          (make_request (_request_id c + 1) "initialize" initialize_params)
      = PostResponse 200 (Ret response)
      /\ has_result response = Ret true.
Proof.
  intros Hoff. rewrite connect_eq. cbv zeta.
  destruct (has_result _) as [[|]|e] eqn:Hr; simpl;
    try (rewrite with_session_connected; congruence); try discriminate.
  apply has_result_reply in Hr.
  rewrite with_session_endpoint, with_session_id in Hr.
  destruct (py_getitem _ _) as [result|e]; simpl; try discriminate.
  destruct (py_get _ _ _) as [caps|e]; simpl; try discriminate.
  auto.
Qed.

(** A handshake that is answered connects the client, whatever happened
    to it before. *)
Lemma connect_after_handshake c :
  handshake_ok net c ->
  fst (connect settings net c) = Ret true
  /\ is_connected (snd (connect settings net c)) = true.
Proof.
  intros (d & r & Hnet & Hres). rewrite connect_eq. cbv zeta.
  assert (Hreply : reply_of net "initialize" initialize_params
                            (with_session settings c) = JDict d).
  { unfold reply_of. destruct (with_session_has_session c) as [s Hs].
    rewrite Hs, with_session_endpoint, with_session_id, Hnet. reflexivity. }
  rewrite Hreply.
  assert (Hhas : has_result (JDict d) = Ret true).
  { unfold has_result, py_in, dmem. rewrite Hres.
    destruct d; [discriminate | reflexivity]. }
  rewrite Hhas. simpl. rewrite Hres. simpl.
  destruct (dget "capabilities" r); auto.
Qed.


End ConnectedFlag.



(* ===================================================================== *)
(** ** [MCPManager.get_all_resources] *)
(* ===================================================================== *)

Section AllResources.

Import MCPClient MCPManager.

Variable settings : Settings.
Variable net : transport.

(** When no call raises, the loop returns the collected dict. *)
Lemma get_all_resources_loop_collect items :
  (forall sid c, In (sid, c) items -> is_connected c = true ->
                 returns (fst (list_resources settings net c)) = true) ->
  forall resources clients,
    fst (get_all_resources_loop settings net items resources clients)
    = Ret (collect settings net items resources).
Proof.
  induction items as [|[sid c] rest IH]; intros Hret resources clients.
  - reflexivity.
  - simpl. unfold resource_entry.
    assert (Hrest : forall sid' c', In (sid', c') rest ->
                      is_connected c' = true ->
                      returns (fst (list_resources settings net c')) = true).
    { intros sid' c' Hin Hc. apply (Hret sid' c'); [now right | exact Hc]. }
    destruct (is_connected c) eqn:Hon.
    + specialize (Hret sid c (or_introl eq_refl) Hon).
      destruct (list_resources settings net c) as [[v|e] c']; simpl in *.
      * apply (IH Hrest).
      * discriminate.
    + apply (IH Hrest).
Qed.

(** The entries of the collected dict, key by key. *)
Lemma dget_collect items :
  NoDup (dkeys items) ->
  forall resources sid,
    dget sid (collect settings net items resources)
    = match dget sid items with
      | Some c => match resource_entry settings net c with
                  | Some v => Some v
                  | None => dget sid resources
                  end
      | None => dget sid resources
      end.
Proof.
  induction items as [|[k c] rest IH]; intros Hnd resources sid; [reflexivity|].
  simpl in Hnd. inversion Hnd as [|? ? Hfresh Hnd']; subst.
  simpl. rewrite (IH Hnd').
  destruct (String.eqb sid k) eqn:E.
  - apply String.eqb_eq in E. subst k.
    apply dmem_false_not_In in Hfresh. unfold dmem in Hfresh.
    destruct (dget sid rest); [discriminate|].
    destruct (resource_entry settings net c); auto using dget_dset_eq.
  - apply String.eqb_neq in E.
    assert (Hacc : dget sid
                     match resource_entry settings net c with
                     | Some v => dset k v resources
                     | None => resources
                     end = dget sid resources).
    { destruct (resource_entry settings net c); auto.
      apply dget_dset_ne. congruence. }
    rewrite Hacc. reflexivity.
Qed.

(** A connected client whose [resources/list] request fails below
    JSON-RPC gets the empty list from [list_resources]. *)
Lemma list_resources_transport_failure c :
  is_connected c = true ->
  transport_failure
    (net (endpoint c) (make_request (_request_id c + 1) "resources/list" JNull)) ->
  fst (list_resources settings net c) = Ret (JList []).
Proof.
  intros Hon Hfail. rewrite list_resources_eq, Hon. cbv zeta.
  now rewrite failed_reply_has_no_result.
Qed.

(** C6, as the code has it.  [get_all_resources] calls [list_resources]
    on every client whose flag is set.  When none of these calls raises,
    it returns a dict that holds, for each such client, exactly what its
    own [list_resources] returned, and no entry for any other id; a
    flagged client whose request fails below JSON-RPC is present in the
    dict with the empty list. *)
Theorem get_all_resources_entries (clients : clients_t) :
  NoDup (dkeys clients) ->
  (forall sid c, In (sid, c) clients -> is_connected c = true ->
                 returns (fst (list_resources settings net c)) = true) ->
  exists resources,
    fst (get_all_resources settings net clients) = Ret resources
    /\ (forall sid,
          dget sid resources
          = match dget sid clients with
            | Some c => resource_entry settings net c
            | None => None
            end)
    /\ (forall sid c,
          dget sid clients = Some c ->
          is_connected c = true ->
          transport_failure
            (net (endpoint c)
                 (make_request (_request_id c + 1) "resources/list" JNull)) ->
          dget sid resources = Some (JList [])).
Proof.
  intros Hnd Hret. exists (collect settings net clients []).
  assert (Hget : forall sid,
             dget sid (collect settings net clients [])
             = match dget sid clients with
               | Some c => resource_entry settings net c
               | None => None
               end).
  { intros sid. rewrite (dget_collect clients Hnd). simpl.
    destruct (dget sid clients); auto.
    now destruct (resource_entry settings net c). }
  split; [|split]; auto.
  - unfold get_all_resources. now apply get_all_resources_loop_collect.
  - intros sid c Hc Hon Hfail. rewrite Hget, Hc. unfold resource_entry.
    now rewrite Hon, list_resources_transport_failure.
Qed.

End AllResources.

(** C6 as stated fails: a server whose request fails is not left out,
    the empty list stands in for it.  The manager's only client is
    connected and its peer refuses every post. *)
Lemma failed_server_gets_empty_list :
  ~ (forall (net : transport) (clients : MCPManager.clients_t) sid c resources,
        dget sid clients = Some c ->
        transport_failure
          (net (MCPClient.endpoint c)
               (MCPClient.make_request (MCPClient._request_id c + 1)
                                       "resources/list" JNull)) ->
        fst (MCPManager.get_all_resources default_settings net clients)
        = Ret resources ->
        dget sid resources = None).
Proof.
  intros H.
  specialize (H dead_net [("alpha", connected_client "alpha")] "alpha"
                (connected_client "alpha") [("alpha", JList [])]
                eq_refl (tf_raises _) eq_refl).
  discriminate.
Qed.

(** C6 at a manager with a silent server and an answering one. *)
Lemma get_all_resources_entries_witness :
  exists resources,
    fst (MCPManager.get_all_resources default_settings handshake_only_net
           [("alpha", connected_client "alpha");
            ("beta", MCPClient.init "beta" "http://localhost:9001" "beta")])
    = Ret resources
    /\ dget "alpha" resources = Some (JList []).
Proof.
  destruct (get_all_resources_entries default_settings handshake_only_net
              [("alpha", connected_client "alpha");
               ("beta", MCPClient.init "beta" "http://localhost:9001" "beta")])
    as (resources & Hret & _ & Hfail).
  - repeat constructor; simpl; intuition discriminate.
  - intros sid c [H|[H|[]]] Hon; inversion H; subst; try reflexivity.
  - exists resources. split; [exact Hret|].
    apply (Hfail "alpha" (connected_client "alpha")); try reflexivity.
    apply tf_raises.
Defined.

(* ===================================================================== *)
(** ** [AWSQConfigLoader.extract_mcp_servers] *)
(* ===================================================================== *)

Section ExtractServers.

Import AWSQ.

Lemma py_get_dict d key default :
  py_get (JDict d) key default
  = Ret (match dget key d with Some x => x | None => default end).
Proof. unfold py_get. now destruct (dget key d). Qed.

(** [from_dict] on a dict: every [get] returns. *)
Lemma from_dict_dict name d :
  exists cfg,
    from_dict name (JDict d) = Ret cfg
    /\ AWSQ.name cfg = name
    /\ transport_type cfg
       = match dget "type" d with
         | Some ty => if equals_str ty "http" then HTTP else STDIO
         | None => STDIO
         end.
Proof.
  unfold from_dict. rewrite !py_get_dict. unfold rbind.
  eexists. split; [reflexivity|]. simpl.
  split; [reflexivity|]. now destruct (dget "type" d).
Qed.

(** An entry parses exactly when its value is a dict. *)
Lemma well_formed_is_dict entry : well_formed entry = is_dict (snd entry).
Proof.
  destruct entry as [name v]. unfold well_formed. simpl.
  destruct v; try reflexivity.
  destruct (from_dict_dict name d) as (cfg & H & _). now rewrite H.
Qed.

Lemma equals_str_http ty :
  equals_str ty "http" = true <-> ty = JStr "http".
Proof.
  destruct ty; simpl; try (split; [discriminate | intros [=]]).
  rewrite String.eqb_eq. split; [congruence | now intros [= ->]].
Qed.

(** The transport of a descriptor is HTTP exactly when the entry's
    [type] is the string [http]. *)
Lemma from_dict_transport name entry cfg :
  from_dict name entry = Ret cfg ->
  AWSQ.name cfg = name
  /\ (transport_type cfg = HTTP <-> py_get entry "type" JNull = Ret (JStr "http"))
  /\ (transport_type cfg = STDIO <-> py_get entry "type" JNull <> Ret (JStr "http")).
Proof.
  destruct entry; try discriminate.
  destruct (from_dict_dict name d) as (cfg' & H & Hname & Htr).
  rewrite H. intros [= <-]. split; [exact Hname|]. rewrite Htr. simpl.
  destruct (dget "type" d) as [ty|].
  - destruct (equals_str ty "http") eqn:E.
    + apply equals_str_http in E. subst ty. intuition congruence.
    + assert (ty <> JStr "http") by (intros ->; simpl in E; discriminate).
      intuition congruence.
  - intuition congruence.
Qed.

Lemma dkeys_parsed_incl entries k :
  In k (dkeys (parsed entries)) -> In k (dkeys entries).
Proof.
  induction entries as [|[n v] rest IH]; simpl; auto.
  destruct (from_dict n v); simpl; intuition.
Qed.

(** With distinct names every [dset] of the loop appends. *)
Lemma extract_loop_parsed entries :
  NoDup (dkeys entries) ->
  forall acc,
    (forall k, In k (dkeys entries) -> ~ In k (dkeys acc)) ->
    extract_loop entries acc = (acc ++ parsed entries)%list.
Proof.
  induction entries as [|[n v] rest IH]; intros Hnd acc Hfresh; simpl.
  - now rewrite app_nil_r.
  - simpl in Hnd. inversion Hnd as [|? ? Hn Hnd']; subst.
    destruct (from_dict n v) as [cfg|e].
    + rewrite dset_fresh.
      * rewrite (IH Hnd').
        -- now rewrite <- app_assoc.
        -- intros k Hk. unfold dkeys. rewrite map_app, in_app_iff. simpl.
           intros [H|[H|[]]].
           ++ apply (Hfresh k); [now right | exact H].
           ++ subst. contradiction.
      * apply dmem_false_not_In. apply Hfresh. now left.
    + apply (IH Hnd'). intros k Hk. apply Hfresh. now right.
Qed.

Lemma length_parsed entries :
  (List.length (parsed entries)
   + List.length (filter malformed entries))%nat
  = List.length entries.
Proof.
  induction entries as [|[n v] rest IH]; simpl; auto.
  unfold malformed at 1, well_formed. simpl.
  destruct (from_dict n v); simpl; lia.
Qed.

Lemma dget_parsed entries :
  NoDup (dkeys entries) ->
  forall name,
    dget name (parsed entries)
    = match dget name entries with
      | Some entry => match from_dict name entry with
                      | Ret cfg => Some cfg
                      | Raise _ => None
                      end
      | None => None
      end.
Proof.
  induction entries as [|[n v] rest IH]; intros Hnd name; simpl; auto.
  simpl in Hnd. inversion Hnd as [|? ? Hn Hnd']; subst.
  destruct (String.eqb name n) eqn:E.
  - apply String.eqb_eq in E. subst n.
    destruct (from_dict name v) as [cfg|e]; simpl.
    + now rewrite String.eqb_refl.
    + destruct (dget name (parsed rest)) eqn:Hp; auto.
      exfalso. apply Hn. apply dkeys_parsed_incl. apply dmem_In.
      unfold dmem. now rewrite Hp.
  - destruct (from_dict n v); simpl; [rewrite E|]; now apply IH.
Qed.

(** Lookup in a dict does not depend on the order of its items. *)
Lemma dget_Permutation {V} (d d' : dict V) k :
  NoDup (dkeys d) -> Permutation d d' -> dget k d = dget k d'.
Proof.
  intros Hnd Hp.
  assert (Hnd' : NoDup (dkeys d')).
  { unfold dkeys. eapply Permutation_NoDup; [|exact Hnd].
    now apply Permutation_map. }
  destruct (dget k d) as [v|] eqn:E.
  - symmetry. apply dget_In; auto.
    eapply Permutation_in; [exact Hp|]. now apply dget_Some_In.
  - destruct (dget k d') as [v'|] eqn:E'; auto.
    apply dget_Some_In in E'.
    apply (Permutation_in _ (Permutation_sym Hp)) in E'.
    apply (dget_In _ _ _ Hnd) in E'. congruence.
Qed.

(** On a well-shaped configuration the function returns the parsed
    entries. *)
Lemma extract_well_shaped config :
  well_shaped config ->
  extract_mcp_servers config = Ret (parsed (entries_of config))
  /\ NoDup (dkeys (entries_of config)).
Proof.
  intros (top & -> & Hshape). unfold extract_mcp_servers, entries_of.
  simpl. unfold dmem.
  destruct (dget "mcpServers" top) as [servers|]; simpl.
  - destruct servers; try contradiction. simpl.
    rewrite extract_loop_parsed; auto.
  - split; [reflexivity | constructor].
Qed.

Lemma list_sum_Permutation l l' :
  Permutation l l' -> list_sum l = list_sum l'.
Proof. induction 1; simpl; lia. Qed.

(** C8.  Over any set of configuration files as [json.load] yields
    them: [extract_mcp_servers] returns on each file; its result holds
    exactly the entries that parse, each under its own name, so a
    malformed entry removes nothing but itself; the descriptors counted
    over all files are the entries minus the malformed ones; a produced
    descriptor has HTTP transport exactly when the [type] of its entry
    is the string [http], STDIO otherwise; and neither the order of the
    entries in a file nor the order of the files matters. *)
Theorem extract_mcp_servers_exact (configs : list json) :
  Forall well_shaped configs ->
  (forall config, In config configs ->
     exists servers,
       extract_mcp_servers config = Ret servers
       /\ (forall name,
             dget name servers
             = match dget name (entries_of config) with
               | Some entry => match from_dict name entry with
                               | Ret cfg => Some cfg
                               | Raise _ => None
                               end
               | None => None
               end)
       /\ (forall name cfg,
             dget name servers = Some cfg ->
             exists entry,
               dget name (entries_of config) = Some entry
               /\ well_formed (name, entry) = true
               /\ AWSQ.name cfg = name
               /\ (transport_type cfg = HTTP
                   <-> py_get entry "type" JNull = Ret (JStr "http"))
               /\ (transport_type cfg = STDIO
                   <-> py_get entry "type" JNull <> Ret (JStr "http")))
       /\ (forall config' servers',
             well_shaped config' ->
             Permutation (entries_of config) (entries_of config') ->
             extract_mcp_servers config' = Ret servers' ->
             dict_equiv servers servers'))
  /\ (list_sum (map extracted_count configs)
      + list_sum (map malformed_count configs))%nat
     = list_sum (map entry_count configs)
  /\ (forall configs',
        Permutation configs configs' ->
        list_sum (map extracted_count configs')
        = list_sum (map extracted_count configs)).
Proof.
  intros Hshape. split; [|split].
  - intros config Hin.
    rewrite Forall_forall in Hshape. specialize (Hshape config Hin).
    destruct (extract_well_shaped config Hshape) as [Hex Hnd].
    exists (parsed (entries_of config)). split; [exact Hex|].
    split; [apply dget_parsed, Hnd|]. split.
    + intros name cfg Hget. rewrite (dget_parsed _ Hnd) in Hget.
      destruct (dget name (entries_of config)) as [entry|]; [|discriminate].
      destruct (from_dict name entry) as [cfg'|e] eqn:Hfd; [|discriminate].
      injection Hget as ->. exists entry. split; [reflexivity|].
      split; [unfold well_formed; simpl; now rewrite Hfd|].
      now apply from_dict_transport.
    + intros config' servers' Hshape' Hperm Hex'.
      destruct (extract_well_shaped config' Hshape') as [Hex2 Hnd'].
      rewrite Hex2 in Hex'. injection Hex' as <-.
      intros k. rewrite (dget_parsed _ Hnd), (dget_parsed _ Hnd').
      now rewrite (dget_Permutation _ _ k Hnd Hperm).
  - induction Hshape as [|config rest Hc Hrest IH]; simpl; auto.
    assert (Hone : (extracted_count config + malformed_count config)%nat
                   = entry_count config).
    { unfold extracted_count, malformed_count, entry_count.
      destruct (extract_well_shaped config Hc) as [-> _].
      apply length_parsed. }
    lia.
  - intros configs' Hperm. symmetry.
    apply list_sum_Permutation. now apply Permutation_map.
Qed.

End ExtractServers.

(** C8 on two files with five entries, two of them malformed. *)
Lemma extract_mcp_servers_exact_witness :
  (list_sum (map AWSQ.extracted_count example_configs)
   + list_sum (map malformed_count example_configs))%nat
  = list_sum (map entry_count example_configs)
  /\ list_sum (map AWSQ.extracted_count example_configs) = 3%nat.
Proof.
  split; [|reflexivity].
  apply (extract_mcp_servers_exact example_configs).
  repeat constructor; eexists; (split; [reflexivity|]); simpl;
    repeat constructor; simpl; intuition discriminate.
Defined.

(* ===================================================================== *)
(** ** [MCPManager.add_server] and the connection limit *)
(* ===================================================================== *)

Section AddServer.

Import MCPClient MCPManager.

Variable settings : Settings.
Variable net : transport.

Lemma add_server_enter_reject sid ep nm cl :
  add_server_enter settings sid ep nm cl = Reject
  <-> dmem sid cl = true \/ MAX_MCP_CONNECTIONS settings <= dlen cl.
Proof.
  unfold add_server_enter. destruct (dmem sid cl); [intuition|].
  destruct (dlen cl >=? MAX_MCP_CONNECTIONS settings) eqn:E.
  - apply Z.geb_le in E. intuition.
  - split; [discriminate|]. intros [H|H]; [discriminate|].
    rewrite Z.geb_leb in E. apply Z.leb_gt in E. lia.
Qed.

Lemma add_server_enter_accept sid ep nm cl c :
  add_server_enter settings sid ep nm cl = Accept c ->
  dmem sid cl = false /\ dlen cl < MAX_MCP_CONNECTIONS settings /\ c = init sid ep nm.
Proof.
  unfold add_server_enter. destruct (dmem sid cl); [discriminate|].
  destruct (dlen cl >=? MAX_MCP_CONNECTIONS settings) eqn:E; [discriminate|].
  rewrite Z.geb_leb in E. apply Z.leb_gt in E.
  intros [= <-]. auto.
Qed.

(** The sequential [add_server] refuses a known id and a full map. *)
Lemma add_server_refuses sid ep nm cl :
  dmem sid cl = true \/ MAX_MCP_CONNECTIONS settings <= dlen cl ->
  add_server settings net sid ep nm cl = (Ret false, cl).
Proof.
  intros H. destruct (add_server_enter_reject sid ep nm cl) as [_ Hr].
  unfold add_server. now rewrite (Hr H).
Qed.

Lemma dlen_dset_fresh {V} k (v : V) d :
  dmem k d = false -> dlen (dset k v d) = dlen d + 1.
Proof. intros H. unfold dlen. rewrite length_dset, H. lia. Qed.

(** The second half of [add_server] adds at most the one new key. *)
Lemma add_server_finish_cases sid c cl :
  (exists c', add_server_finish settings net sid c cl
              = (Ret true, dset sid c' cl))
  \/ (fst (add_server_finish settings net sid c cl) <> Ret true
      /\ snd (add_server_finish settings net sid c cl) = cl).
Proof.
  unfold add_server_finish.
  destruct (connect settings net c) as [[[|]|e] c']; simpl; eauto;
    right; split; auto; discriminate.
Qed.

(** *** Lists with one element replaced *)

Lemma count_connecting_mid pre t post :
  count_connecting (pre ++ t :: post)
  = (count_connecting pre + (if is_connecting t then 1 else 0)
     + count_connecting post)%nat.
Proof.
  unfold count_connecting. rewrite filter_app, length_app. simpl.
  destruct (is_connecting t); simpl; lia.
Qed.

Lemma count_connecting_zero tasks sid c :
  count_connecting tasks = 0%nat -> ~ In (Connecting sid c) tasks.
Proof.
  unfold count_connecting. intros H Hin.
  assert (Hf : In (Connecting sid c) (filter is_connecting tasks)).
  { apply filter_In. auto. }
  destruct (filter is_connecting tasks); [contradiction | discriminate].
Qed.

Lemma in_mid_replace {A} (x a b : A) pre post :
  In x (pre ++ b :: post) -> x = b \/ In x (pre ++ a :: post).
Proof.
  rewrite !in_app_iff. simpl. intuition.
Qed.

Lemma task_ids_mid pre t t' post :
  task_id t = task_id t' ->
  map task_id (pre ++ t :: post) = map task_id (pre ++ t' :: post).
Proof. intros H. rewrite !map_app. simpl. now rewrite H. Qed.

Lemma count_returned_mid b cl lk pre t post :
  count_returned b (mk_system cl lk (pre ++ t :: post))
  = (List.length (filter (returned b) pre)
     + (if returned b t then 1 else 0)
     + List.length (filter (returned b) post))%nat.
Proof.
  unfold count_returned. simpl. rewrite filter_app, length_app. simpl.
  destruct (returned b t); simpl; lia.
Qed.

(** *** The invariant of every run *)

Lemma step_limit_inv s s' :
  step settings net s s' -> limit_inv settings s -> limit_inv settings s'.
Proof.
  unfold limit_inv. intros Hstep.
  destruct Hstep as [pre post sid ep nm cl Hrej
                    |pre post sid ep nm cl c Hacc
                    |pre post sid c cl]; simpl;
    intros (Hlen & Hcount & Hguard).
  - rewrite count_connecting_mid in *. simpl in *.
    split; [exact Hlen|]. split; [exact Hcount|].
    intros sid' c' Hin.
    apply (in_mid_replace _ (Waiting sid ep nm)) in Hin.
    destruct Hin as [Hin|Hin]; [discriminate | eauto].
  - apply add_server_enter_accept in Hacc. destruct Hacc as (Hfresh & Hroom & _).
    rewrite count_connecting_mid in *. simpl in *.
    split; [exact Hlen|]. split; [lia|].
    intros sid' c' Hin.
    apply (in_mid_replace _ (Waiting sid ep nm)) in Hin.
    destruct Hin as [Hin|Hin].
    + injection Hin as -> ->. auto.
    + exfalso. revert Hin. apply count_connecting_zero.
      rewrite count_connecting_mid. simpl. lia.
  - destruct (Hguard sid c) as [Hfresh Hroom].
    { apply in_elt. }
    rewrite count_connecting_mid in *. simpl in *.
    assert (Hnone : count_connecting (pre ++ Done sid
                      (fst (add_server_finish settings net sid c cl)) :: post)
                    = 0%nat).
    { rewrite count_connecting_mid. simpl. lia. }
    split; [|split].
    + destruct (add_server_finish_cases sid c cl) as [[c' H]|[_ H]].
      * rewrite H. simpl. rewrite dlen_dset_fresh; [lia | exact Hfresh].
      * rewrite H. exact Hlen.
    + rewrite count_connecting_mid in Hnone. simpl in Hnone. lia.
    + intros sid' c' Hin. exfalso. revert Hin.
      now apply count_connecting_zero.
Qed.

Lemma steps_limit_inv s s' :
  steps settings net s s' -> limit_inv settings s -> limit_inv settings s'.
Proof.
  induction 1 as [|s1 s2 s3 Hsteps IH Hstep]; auto.
  intros Hinit. eapply step_limit_inv; eauto.
Qed.

Lemma count_connecting_launch cl calls :
  count_connecting (sys_tasks (launch cl calls)) = 0%nat.
Proof.
  unfold launch, count_connecting. simpl.
  induction calls as [|call rest IH]; simpl; auto.
Qed.

Lemma launch_limit_inv cl calls :
  dlen cl <= MAX_MCP_CONNECTIONS settings -> limit_inv settings (launch cl calls).
Proof.
  intros H. split; [exact H|]. split; [apply count_connecting_launch|].
  intros sid c Hin. exfalso. revert Hin.
  apply count_connecting_zero, count_connecting_launch.
Qed.

(** However the calls interleave, the map never exceeds the limit. *)
Lemma concurrent_adds_within_limit cl calls s :
  dlen cl <= MAX_MCP_CONNECTIONS settings ->
  steps settings net (launch cl calls) s ->
  dlen (sys_clients s) <= MAX_MCP_CONNECTIONS settings.
Proof.
  intros H Hsteps.
  apply (steps_limit_inv _ _ Hsteps (launch_limit_inv cl calls H)).
Qed.

End AddServer.

Section AddServerRuns.

Import MCPClient MCPManager.

Variable settings : Settings.
Variable net : transport.

(** *** Every run ends *)

Lemma steps_step_left s1 s2 s3 :
  step settings net s1 s2 -> steps settings net s2 s3 ->
  steps settings net s1 s3.
Proof.
  intros H12 H23. induction H23 as [|s2 s s3 H IH Hstep].
  - eapply steps_step; [apply steps_refl | exact H12].
  - eapply steps_step; [apply IH; exact H12 | exact Hstep].
Qed.

Lemma weight_mid cl lk pre t post :
  weight (mk_system cl lk (pre ++ t :: post))
  = (list_sum (map task_weight pre) + task_weight t
     + list_sum (map task_weight post))%nat.
Proof.
  unfold weight. simpl. rewrite map_app, list_sum_app. simpl. lia.
Qed.

Lemma step_weight s s' : step settings net s s' -> (weight s' < weight s)%nat.
Proof.
  intros [pre post sid ep nm cl Hrej
         |pre post sid ep nm cl c Hacc
         |pre post sid c cl]; rewrite !weight_mid; simpl; lia.
Qed.

Lemma find_connecting tasks :
  (0 < count_connecting tasks)%nat ->
  exists pre sid c post, tasks = (pre ++ Connecting sid c :: post)%list.
Proof.
  unfold count_connecting.
  induction tasks as [|t rest IH]; simpl; [lia|].
  destruct t as [sid ep nm|sid c|sid r]; simpl; intros H.
  - destruct (IH H) as (pre & sid' & c & post & ->).
    now exists (Waiting sid ep nm :: pre), sid', c, post.
  - now exists [], sid, c, rest.
  - destruct (IH H) as (pre & sid' & c & post & ->).
    now exists (Done sid r :: pre), sid', c, post.
Qed.

Lemma find_waiting tasks :
  forallb is_done tasks = false ->
  count_connecting tasks = 0%nat ->
  exists pre sid ep nm post, tasks = (pre ++ Waiting sid ep nm :: post)%list.
Proof.
  unfold count_connecting.
  induction tasks as [|t rest IH]; simpl; [discriminate|].
  destruct t as [sid ep nm|sid c|sid r]; simpl; intros Hd Hc.
  - now exists [], sid, ep, nm, rest.
  - discriminate.
  - destruct (IH Hd Hc) as (pre & sid' & ep & nm & post & ->).
    now exists (Done sid r :: pre), sid', ep, nm, post.
Qed.

(** A run that is not over can go on. *)
Lemma progress s :
  limit_inv settings s -> ~ finished s -> exists s', step settings net s s'.
Proof.
  destruct s as [cl lk tasks]. unfold limit_inv, finished. simpl.
  intros (_ & Hcount & _) Hnot. destruct lk.
  - destruct (find_connecting tasks) as (pre & sid & c & post & ->); [lia|].
    eexists. apply step_finish.
  - destruct (find_waiting tasks) as (pre & sid & ep & nm & post & ->); auto.
    { destruct (forallb is_done tasks); congruence. }
    destruct (add_server_enter settings sid ep nm cl) as [|c] eqn:E;
      eexists; [now apply step_reject | eapply step_enter; exact E].
Qed.

Lemma finished_dec s : {finished s} + {~ finished s}.
Proof.
  unfold finished. destruct (forallb is_done (sys_tasks s));
    [left | right]; congruence.
Qed.

(** Every run can be completed, in at most [weight] steps. *)
Lemma runs_end n : forall s,
  (weight s <= n)%nat -> limit_inv settings s ->
  exists s', steps settings net s s' /\ finished s'.
Proof.
  induction n as [|n IH]; intros s Hw Hinv.
  - destruct (finished_dec s) as [Hf|Hf].
    + exists s. split; [apply steps_refl | exact Hf].
    + destruct (progress s Hinv Hf) as [s' Hstep].
      apply step_weight in Hstep. lia.
  - destruct (finished_dec s) as [Hf|Hf].
    + exists s. split; [apply steps_refl | exact Hf].
    + destruct (progress s Hinv Hf) as [s' Hstep].
      destruct (IH s') as (s'' & Hsteps & Hfin).
      * apply step_weight in Hstep. lia.
      * eapply step_limit_inv; eauto.
      * exists s''. split; [|exact Hfin].
        eapply steps_step_left; eauto.
Qed.

Lemma step_length s s' :
  step settings net s s' ->
  List.length (sys_tasks s') = List.length (sys_tasks s).
Proof.
  intros [pre post sid ep nm cl Hrej
         |pre post sid ep nm cl c Hacc
         |pre post sid c cl]; simpl; rewrite !length_app; reflexivity.
Qed.

Lemma steps_length s s' :
  steps settings net s s' ->
  List.length (sys_tasks s') = List.length (sys_tasks s).
Proof.
  induction 1 as [|s1 s2 s3 Hsteps IH Hstep]; auto.
  rewrite (step_length _ _ Hstep). exact IH.
Qed.

(** *** Distinct ids and a network that always connects *)

Hypothesis Hconn : always_connects settings net.

Lemma add_server_finish_connects sid c cl :
  add_server_finish settings net sid c cl
  = (Ret true, dset sid (snd (connect settings net c)) cl).
Proof.
  unfold add_server_finish. specialize (Hconn c).
  destruct (connect settings net c) as [r c']. simpl in *. now subst r.
Qed.

Lemma ids_unique tasks x y :
  NoDup (map task_id tasks) -> In x tasks -> In y tasks ->
  task_id x = task_id y -> x = y.
Proof.
  induction tasks as [|t rest IH]; simpl; [tauto|].
  intros Hnd Hx Hy Hid. inversion Hnd as [|? ? Hfresh Hnd']; subst.
  destruct Hx as [->|Hx], Hy as [->|Hy]; auto.
  - exfalso. apply Hfresh. rewrite Hid. now apply in_map.
  - exfalso. apply Hfresh. rewrite <- Hid. now apply in_map.
Qed.

Lemma step_scenario_inv s s' :
  step settings net s s' ->
  limit_inv settings s -> scenario_inv settings s -> scenario_inv settings s'.
Proof.
  unfold limit_inv, scenario_inv. intros Hstep.
  destruct Hstep as [pre post sid ep nm cl Hrej
                    |pre post sid ep nm cl c Hacc
                    |pre post sid c cl];
    rewrite ?add_server_finish_connects; simpl;
    intros (Hlen & Hcount & Hguard) (Hnd & Hkeys & Hsize & Hdone);
    rewrite count_returned_mid in *; simpl in *.
  - split; [|split; [|split]].
    + now rewrite (task_ids_mid pre _ (Waiting sid ep nm) post).
    + intros k Hk. specialize (Hkeys k Hk).
      apply (in_mid_replace _ (Done sid (Ret false))) in Hkeys.
      destruct Hkeys as [Hkeys|Hkeys]; [discriminate | exact Hkeys].
    + exact Hsize.
    + intros sid' r Hin.
      apply (in_mid_replace _ (Waiting sid ep nm)) in Hin.
      destruct Hin as [Hin|Hin]; [|eauto].
      injection Hin as -> ->. right. split; [reflexivity|].
      apply add_server_enter_reject in Hrej. destruct Hrej as [Hmem|Hfull]; auto.
      exfalso. specialize (Hkeys sid Hmem).
      assert (Heq : Done sid (Ret true) = Waiting sid ep nm).
      { apply (ids_unique _ _ _ Hnd Hkeys); [apply in_elt | reflexivity]. }
      discriminate.
  - split; [|split; [|split]].
    + now rewrite (task_ids_mid pre _ (Waiting sid ep nm) post).
    + intros k Hk. specialize (Hkeys k Hk).
      apply (in_mid_replace _ (Connecting sid c)) in Hkeys.
      destruct Hkeys as [Hkeys|Hkeys]; [discriminate | exact Hkeys].
    + exact Hsize.
    + intros sid' r Hin.
      apply (in_mid_replace _ (Waiting sid ep nm)) in Hin.
      destruct Hin as [Hin|Hin]; [discriminate | eauto].
  - destruct (Hguard sid c) as [Hfresh Hroom]; [apply in_elt|].
    split; [|split; [|split]].
    + now rewrite (task_ids_mid pre _ (Connecting sid c) post).
    + intros k. rewrite dmem_dset.
      destruct (String.eqb sid k) eqn:E; simpl.
      * apply String.eqb_eq in E. subst k. intros _. apply in_elt.
      * intros Hk. specialize (Hkeys k Hk).
        apply (in_mid_replace _ (Done sid (Ret true))) in Hkeys.
        destruct Hkeys as [Hkeys|Hkeys]; [discriminate | exact Hkeys].
    + rewrite length_dset, Hfresh. lia.
    + intros sid' r Hin.
      apply (in_mid_replace _ (Connecting sid c)) in Hin.
      destruct Hin as [Hin|Hin].
      * injection Hin as -> ->. now left.
      * destruct (Hdone sid' r Hin) as [->|[-> Hfull]]; [now left|].
        right. split; [reflexivity|]. rewrite dlen_dset_fresh; auto. lia.
Qed.

Lemma steps_scenario_inv s s' :
  steps settings net s s' ->
  limit_inv settings s -> scenario_inv settings s ->
  limit_inv settings s' /\ scenario_inv settings s'.
Proof.
  induction 1 as [|s1 s2 s3 Hsteps IH Hstep]; auto.
  intros Hl Hs. destruct (IH Hl Hs) as [Hl2 Hs2]. split.
  - eapply step_limit_inv; eauto.
  - eapply step_scenario_inv; eauto.
Qed.

Lemma launch_scenario_inv calls :
  NoDup (map call_id calls) -> scenario_inv settings (launch [] calls).
Proof.
  intros Hnd. unfold scenario_inv, launch, count_returned. simpl.
  split; [|split; [|split]].
  - rewrite map_map. exact Hnd.
  - discriminate.
  - induction calls; simpl; auto.
    apply IHcalls. now inversion Hnd.
  - intros sid r Hin. apply in_map_iff in Hin.
    destruct Hin as (call & Hcall & _). discriminate.
Qed.

(** In a finished run every call returned true or false, and one that
    returned false found the map full. *)
Lemma finished_counts P tasks :
  forallb is_done tasks = true ->
  (forall sid r, In (Done sid r) tasks ->
                 r = Ret true \/ (r = Ret false /\ P)) ->
  (List.length (filter (returned true) tasks)
   + List.length (filter (returned false) tasks))%nat = List.length tasks
  /\ ((0 < List.length (filter (returned false) tasks))%nat -> P).
Proof.
  induction tasks as [|t rest IH]; simpl; intros Hd Hr.
  - split; [reflexivity | lia].
  - apply andb_prop in Hd. destruct Hd as [Ht Hd].
    destruct IH as [IH1 IH2]; [exact Hd | intros sid r Hin; eauto |].
    destruct t as [sid ep nm|sid c|sid r]; try discriminate.
    destruct (Hr sid r (or_introl eq_refl)) as [->|[-> HP]]; simpl;
      split; auto; lia.
Qed.

(** With distinct ids on an empty manager and a network that always
    connects, a finished run has filled the map up to the limit or
    registered every call. *)
Lemma finished_run_counts calls s :
  0 <= MAX_MCP_CONNECTIONS settings ->
  NoDup (map call_id calls) ->
  steps settings net (launch [] calls) s ->
  finished s ->
  List.length (sys_clients s) = count_returned true s
  /\ (count_returned true s + count_returned false s)%nat = List.length calls
  /\ dlen (sys_clients s) <= MAX_MCP_CONNECTIONS settings
  /\ ((0 < count_returned false s)%nat -> dlen (sys_clients s) = MAX_MCP_CONNECTIONS settings).
Proof.
  intros Hmax Hnd Hsteps Hfin.
  destruct (steps_scenario_inv _ _ Hsteps) as [Hl Hs].
  { apply launch_limit_inv. exact Hmax. }
  { now apply launch_scenario_inv. }
  destruct Hl as (Hlen & _ & _). destruct Hs as (_ & _ & Hsize & Hdone).
  destruct (finished_counts _ _ Hfin Hdone) as [Hsum Hfull].
  pose proof (steps_length _ _ Hsteps) as Hn.
  unfold launch in Hn. simpl in Hn. rewrite length_map in Hn.
  unfold count_returned in *.
  split; [exact Hsize|]. split; [lia|]. split; [exact Hlen|].
  intros Hf. specialize (Hfull Hf). unfold dlen in *. lia.
Qed.

End AddServerRuns.

Lemma stub_net_always_connects settings : always_connects settings stub_net.
Proof.
  intros c. apply connect_after_handshake.
  exists [("result", JDict [])], []. split; reflexivity.
Qed.

(** C1.  (1) [add_server] returns false and leaves the map untouched
    when the id is already a key or the map already holds the maximum
    number of connections.  (2) However concurrent [add_server] calls
    interleave, a map that starts within the limit stays within it.
    (3) With limit 3, five concurrent calls with distinct ids on an empty
    manager whose transports always connect: every run can be completed,
    and every completed run has registered exactly 3 clients, with 3
    calls returning true and 2 returning false. *)
Theorem add_server_never_exceeds_limit (settings : Settings) (net : transport) :
  (forall sid ep nm cl,
      dmem sid cl = true \/ MAX_MCP_CONNECTIONS settings <= dlen cl ->
      MCPManager.add_server settings net sid ep nm cl = (Ret false, cl))
  /\ (forall cl calls s,
        dlen cl <= MAX_MCP_CONNECTIONS settings ->
        MCPManager.steps settings net (MCPManager.launch cl calls) s ->
        dlen (MCPManager.sys_clients s) <= MAX_MCP_CONNECTIONS settings)
  /\ (MAX_MCP_CONNECTIONS settings = 3 ->
      always_connects settings net ->
      forall calls,
        List.length calls = 5%nat ->
        NoDup (map call_id calls) ->
        forall s,
          MCPManager.steps settings net (MCPManager.launch [] calls) s ->
          (exists s', MCPManager.steps settings net s s'
                      /\ MCPManager.finished s')
          /\ (MCPManager.finished s ->
              dlen (MCPManager.sys_clients s) = 3
              /\ MCPManager.count_returned true s = 3%nat
              /\ MCPManager.count_returned false s = 2%nat)).
Proof.
  split; [apply add_server_refuses|].
  split; [apply concurrent_adds_within_limit|].
  intros Hmax Hconn calls Hn Hnd s Hsteps. split.
  - apply (runs_end settings net (MCPManager.weight s)); [lia|].
    apply (steps_limit_inv _ _ _ _ Hsteps).
    apply launch_limit_inv. unfold dlen. simpl. lia.
  - intros Hfin.
    destruct (finished_run_counts settings net Hconn calls s)
      as (Hsize & Hsum & Hlen & Hfull); auto; [lia|].
    rewrite Hn, Hmax in *. unfold dlen in *.
    destruct (MCPManager.count_returned false s) as [|k] eqn:Hf.
    + lia.
    + assert (Hfull' : Z.of_nat (List.length (MCPManager.sys_clients s)) = 3)
        by (apply Hfull; lia).
      lia.
Qed.

(** C1 at the stub network: a full manager refuses a fourth id, and the
    five calls have a completed run, which registered 3 and refused 2. *)
Lemma add_server_never_exceeds_limit_witness :
  MCPManager.add_server default_settings stub_net "s4" "http://localhost:9004"
    "four" [("s1", connected_client "s1"); ("s2", connected_client "s2");
            ("s3", connected_client "s3")]
  = (Ret false, [("s1", connected_client "s1"); ("s2", connected_client "s2");
                 ("s3", connected_client "s3")])
  /\ exists s,
      MCPManager.steps default_settings stub_net
                       (MCPManager.launch [] five_calls) s
      /\ MCPManager.finished s
      /\ dlen (MCPManager.sys_clients s) = 3
      /\ MCPManager.count_returned true s = 3%nat
      /\ MCPManager.count_returned false s = 2%nat.
Proof.
  destruct (add_server_never_exceeds_limit default_settings stub_net)
    as (Hrefuse & _ & Hrun).
  split.
  - apply Hrefuse. right. simpl. vm_compute. discriminate.
  - assert (Hnd : NoDup (map call_id five_calls)).
    { repeat constructor; simpl; intuition discriminate. }
    destruct (Hrun eq_refl (stub_net_always_connects default_settings)
                   five_calls eq_refl Hnd
                   (MCPManager.launch [] five_calls)
                   (MCPManager.steps_refl _ _ _))
      as [(s & Hsteps & Hfin) _].
    exists s. split; [exact Hsteps|]. split; [exact Hfin|].
    apply (Hrun eq_refl (stub_net_always_connects default_settings)
                five_calls eq_refl Hnd s Hsteps).
    exact Hfin.
Defined.

(* ===================================================================== *)
(** ** [STDIOBridge]: children and listeners *)
(* ===================================================================== *)

Section BridgeFacts.

Import AWSQ STDIOBridge.

Lemma nth_error_update_nth {A} (f : A -> A) l n x :
  nth_error l n = Some x -> nth_error (update_nth n f l) n = Some (f x).
Proof.
  revert n. induction l as [|y r IH]; intros [|n]; simpl; try discriminate.
  - now intros [= ->].
  - apply IH.
Qed.

Lemma update_nth_twice {A} (f g : A -> A) l n :
  update_nth n f (update_nth n g l) = update_nth n (fun x => f (g x)) l.
Proof.
  revert n. induction l as [|y r IH]; intros [|n]; simpl; auto.
  now rewrite IH.
Qed.

Lemma update_nth_ext {A} (f g : A -> A) l n :
  (forall x, f x = g x) -> update_nth n f l = update_nth n g l.
Proof.
  intros H. revert n. induction l as [|y r IH]; intros [|n]; simpl; auto.
  - now rewrite H.
  - now rewrite IH.
Qed.

Lemma map_update_nth {A B} (h : A -> B) (f : A -> A) l n :
  (forall x, h (f x) = h x) -> map h (update_nth n f l) = map h l.
Proof.
  intros Hf. revert n. induction l as [|y r IH]; intros [|n]; simpl; auto.
  - now rewrite Hf.
  - now rewrite IH.
Qed.

Lemma nth_error_last {A} (l : list A) x :
  nth_error (l ++ [x]) (List.length l) = Some x.
Proof. induction l; simpl; auto. Qed.

Lemma update_nth_last {A} (f : A -> A) l x :
  update_nth (List.length l) f (l ++ [x]) = (l ++ [f x])%list.
Proof. induction l as [|y r IH]; simpl; auto. now rewrite IH. Qed.

Lemma live_children_exited o c :
  live c = false ->
  filter live (children o ++ [c]) = live_children o.
Proof.
  intros H. unfold live_children. rewrite filter_app. simpl. rewrite H.
  apply app_nil_r.
Qed.

(** [stop] on a bridge whose child has not exited. *)
Lemma stop_live b o pid c :
  process b = Some pid ->
  nth_error (children o) pid = Some c ->
  live c = true ->
  stop (b, o)
  = (Ret tt,
     match bridge_server b with
     | Some runner =>
         (mk_bridge (config b) (process b) (bridge_port b)
                    (Some {| sites := [] |}),
          mk_os (update_nth pid (set_status Exited) (children o))
                (filter (fun p => negb (existsb (Z.eqb p) (sites runner)))
                        (listening o)))
     | None =>
         (b, mk_os (update_nth pid (set_status Exited) (children o))
                   (listening o))
     end).
Proof.
  intros Hp Hc Hl.
  cbv beta iota delta [stop bind get terminate wait cleanup modify ret raise
                       fst snd].
  rewrite Hp. cbv beta iota. rewrite Hc, Hl. simpl.
  rewrite update_nth_twice.
  rewrite (update_nth_ext _ (set_status Exited)) by reflexivity.
  unfold set_bridge_server, set_listening, set_children. simpl.
  destruct (bridge_server b) as [runner|] eqn:Hs; simpl;
    [now rewrite Hp|].
  now destruct b.
Qed.

(** [stop] on a bridge whose child has exited: [terminate] raises and
    nothing else is done. *)
Lemma stop_exited b o pid c :
  process b = Some pid ->
  nth_error (children o) pid = Some c ->
  live c = false ->
  stop (b, o) = (Raise (Exn ProcessLookupError EmptyString), (b, o)).
Proof.
  intros Hp Hc Hl.
  cbv beta iota delta [stop bind get terminate raise fst snd].
  rewrite Hp. cbv beta iota. now rewrite Hc, Hl.
Qed.

(** [stop] on a bridge that was never started. *)
Lemma stop_never_started cfg o :
  stop (STDIOBridge.init cfg, o) = (Ret tt, (STDIOBridge.init cfg, o)).
Proof. reflexivity. Qed.

End BridgeFacts.

(* ===================================================================== *)
(** ** [STDIOBridge.stop] *)
(* ===================================================================== *)




(* ===================================================================== *)
(** ** [STDIOBridge.start] *)
(* ===================================================================== *)




(* ===================================================================== *)
(** ** [STDIOBridge._handle_request] *)
(* ===================================================================== *)

Section HandleRequest.

Import AWSQ STDIOBridge.

Lemma same_resources_refl s : same_resources s s.
Proof. now unfold same_resources. Qed.

Lemma same_resources_trans s1 s2 s3 :
  same_resources s1 s2 -> same_resources s2 s3 -> same_resources s1 s3.
Proof.
  unfold same_resources. intros (A1 & B1 & C1) (A2 & B2 & C2).
  repeat split; congruence.
Qed.

Lemma preserves_bind {A B} (m : Py st A) (k : A -> Py st B) :
  preserves same_resources m ->
  (forall a, preserves same_resources (k a)) ->
  preserves same_resources (bind m k).
Proof.
  intros Hm Hk s. unfold bind. specialize (Hm s).
  destruct (m s) as [[a|e] s1]; simpl in *; auto.
  eapply same_resources_trans; [exact Hm | apply Hk].
Qed.

Lemma preserves_pure {A} (r : res A) : preserves same_resources (lift r).
Proof. intros s. apply same_resources_refl. Qed.

Lemma preserves_try {A} (m : Py st A) (h : exn -> Py st A) :
  preserves same_resources m ->
  (forall e, preserves same_resources (h e)) ->
  preserves same_resources (try_except m h).
Proof.
  intros Hm Hh s. unfold try_except. specialize (Hm s).
  destruct (m s) as [[a|e] s1]; simpl in *; auto.
  eapply same_resources_trans; [exact Hm | apply Hh].
Qed.

(** Rewriting the pipes of one child keeps the resources. *)
Lemma same_resources_pipes b o pid (f : child -> child) :
  (forall c, status (f c) = status c) ->
  same_resources (b, o) (b, mk_os (update_nth pid f (children o)) (listening o)).
Proof.
  intros Hf. unfold same_resources. simpl.
  repeat split; auto. now apply map_update_nth.
Qed.

Lemma preserves_write line : preserves same_resources (stdin_write_drain line).
Proof.
  intros [b o].
  cbv beta iota delta [stdin_write_drain bind get modify raise no_process
                       fst snd].
  destruct (process b) as [pid|]; [|apply same_resources_refl].
  destruct (nth_error (children o) pid) as [c|]; [|apply same_resources_refl].
  destruct (live c); [|apply same_resources_refl].
  now apply same_resources_pipes.
Qed.

Lemma preserves_read timeout :
  preserves same_resources (wait_for_readline timeout).
Proof.
  intros [b o].
  cbv beta iota delta [wait_for_readline bind get modify raise ret no_process
                       fst snd].
  destruct (process b) as [pid|]; [|apply same_resources_refl].
  destruct (nth_error (children o) pid) as [c|]; [|apply same_resources_refl].
  destruct (stdout_queue c) as [|[line latency] rest].
  - destruct (live c); apply same_resources_refl.
  - destruct (Qle_bool timeout latency); now apply same_resources_pipes.
Qed.

(** Handling a request neither spawns nor ends a child and keeps every
    handle and listener. *)
Lemma preserves_handle_request body :
  preserves same_resources (_handle_request body).
Proof.
  unfold _handle_request, forward. apply preserves_try.
  - apply preserves_bind; [apply preserves_pure|]. intros data.
    apply preserves_bind; [apply preserves_write|]. intros _.
    apply preserves_bind; [intros s; apply same_resources_refl|]. intros s.
    apply preserves_bind; [apply preserves_pure|]. intros timeout.
    apply preserves_bind; [apply preserves_read|]. intros line.
    apply preserves_bind; [apply preserves_pure|]. intros response.
    intros s0. apply same_resources_refl.
  - intros e. destruct (is_timeout e); intros s; apply same_resources_refl.
Qed.

(** The handler always answers. *)
Lemma handle_request_returns body s :
  exists response, fst (_handle_request body s) = Ret response.
Proof.
  unfold _handle_request, try_except.
  destruct (forward body s) as [[r|e] s']; simpl; eauto.
  destruct (is_timeout e); simpl; eauto.
Qed.

(** [forward] up to the read, on a body that decodes and a child that
    has not exited. *)
Lemma forward_reaches_read body data b o pid c ms :
  Codec.loads body = Ret data ->
  process b = Some pid ->
  nth_error (children o) pid = Some c ->
  live c = true ->
  timeout (config b) = JInt ms ->
  forward body (b, o)
  = read_response (inject_Z ms / inject_Z 1000)%Q
      (b, mk_os (update_nth pid (receive (Codec.dumps data ++ newline))
                            (children o))
                (listening o)).
Proof.
  intros Hbody Hp Hc Hl Ht. unfold forward, read_response.
  unfold bind at 1. unfold lift at 1. rewrite Hbody.
  unfold bind at 1.
  assert (Hw : stdin_write_drain (Codec.dumps data ++ newline) (b, o)
               = (Ret tt,
                  (b, mk_os (update_nth pid
                               (receive (Codec.dumps data ++ newline))
                               (children o))
                            (listening o)))).
  { cbv beta iota delta [stdin_write_drain bind get modify fst snd].
    rewrite Hp. cbv beta iota. rewrite Hc, Hl. reflexivity. }
  rewrite Hw. unfold bind at 1. unfold get at 1. cbv beta iota.
  unfold bind at 1. unfold lift at 1. simpl fst. rewrite Ht. reflexivity.
Qed.

Lemma read_times_out timeout b o pid c :
  process b = Some pid ->
  nth_error (children o) pid = Some c ->
  live c = true ->
  no_line_within timeout (stdout_queue c) ->
  fst (read_response timeout (b, o)) = Raise (Exn TimeoutError EmptyString).
Proof.
  intros Hp Hc Hl Hq. unfold read_response. unfold bind at 1.
  cbv beta iota delta [wait_for_readline bind get modify raise ret fst snd].
  rewrite Hp. cbv beta iota. rewrite Hc.
  unfold no_line_within in Hq.
  destruct (stdout_queue c) as [|[line latency] rest].
  - now rewrite Hl.
  - now rewrite Hq.
Qed.

Lemma read_in_time timeout b o pid c line latency rest response :
  process b = Some pid ->
  nth_error (children o) pid = Some c ->
  stdout_queue c = (line, latency) :: rest ->
  Qle_bool timeout latency = false ->
  Codec.loads line = Ret response ->
  fst (read_response timeout (b, o)) = Ret (json_response response 200).
Proof.
  intros Hp Hc Hq Hlat Hline. unfold read_response. unfold bind at 1.
  cbv beta iota delta [wait_for_readline bind get modify raise ret fst snd].
  rewrite Hp. cbv beta iota. rewrite Hc, Hq, Hlat.
  unfold lift. now rewrite Hline.
Qed.

End HandleRequest.

(* ===================================================================== *)
(** ** [json.dumps] writes one line *)
(* ===================================================================== *)

Section OneLine.

Lemma one_line_app a b : one_line (a ++ b) = (one_line a && one_line b)%bool.
Proof.
  induction a as [|c r IH]; simpl; auto. rewrite IH. now rewrite andb_assoc.
Qed.

Lemma one_line_escape_char c : one_line (Codec.escape_char c) = true.
Proof. destruct c as [[|] [|] [|] [|] [|] [|] [|] [|]]; reflexivity. Qed.

Lemma one_line_escape s : one_line (Codec.escape s) = true.
Proof.
  induction s as [|c r IH]; simpl; auto.
  now rewrite one_line_app, one_line_escape_char, IH.
Qed.

Lemma one_line_quote s : one_line (Codec.quote s) = true.
Proof.
  unfold Codec.quote. simpl. now rewrite one_line_app, one_line_escape.
Qed.

Lemma one_line_uint d : one_line (NilEmpty.string_of_uint d) = true.
Proof. induction d; simpl; auto. Qed.

Lemma one_line_string_of_Z n : one_line (Codec.string_of_Z n) = true.
Proof.
  unfold Codec.string_of_Z, NilZero.string_of_int, NilZero.string_of_uint.
  destruct (Z.to_int n) as [d|d]; destruct d; simpl; auto using one_line_uint.
Qed.

Lemma one_line_concat sep l :
  one_line sep = true ->
  Forall (fun s => one_line s = true) l ->
  one_line (String.concat sep l) = true.
Proof.
  intros Hsep. induction 1 as [|s r Hs Hr IH]; simpl; auto.
  destruct r; auto.
  rewrite !one_line_app, Hs, Hsep. exact IH.
Qed.

Lemma one_line_member k text :
  one_line text = true -> one_line (Codec.quote k ++ ": " ++ text) = true.
Proof.
  intros H. now rewrite !one_line_app, one_line_quote, H.
Qed.

(** [json.dumps] never writes a raw newline: what the bridge sends to
    the stdin of the subprocess is one line. *)
Lemma dumps_one_line : forall v, one_line (Codec.dumps v) = true.
Proof.
  fix IH 1. intros [| [|] | n | s | l | d]; simpl; auto.
  - apply one_line_string_of_Z.
  - apply one_line_quote.
  - rewrite one_line_app, andb_true_r. apply one_line_concat; auto.
    induction l as [|x r IHl]; simpl; constructor; auto.
  - rewrite one_line_app, andb_true_r. apply one_line_concat; auto.
    induction d as [|[k x] r IHd]; constructor; auto.
    apply one_line_member, IH.
Qed.

End OneLine.

Section HandleRequestCases.

Import AWSQ STDIOBridge.

Lemma loads_error text e : Codec.loads text = Raise e -> is_timeout e = false.
Proof.
  unfold Codec.loads.
  destruct (Codec.parse_value _ _) as [[v r]|]; [|now intros [= <-]].
  destruct (Codec.skip_ws r); [discriminate | now intros [= <-]].
Qed.

(** What the handler makes of an exception of its [try] body. *)
Lemma handle_request_of_failure body s e :
  fst (forward body s) = Raise e ->
  fst (_handle_request body s)
  = Ret (if is_timeout e
         then json_response timeout_error 504
         else json_response (internal_error e) 500).
Proof.
  unfold _handle_request, try_except. intros H.
  destruct (forward body s) as [r s']. simpl in H. subst r.
  now destruct (is_timeout e).
Qed.

Lemma handle_request_of_success body s response :
  fst (forward body s) = Ret response ->
  fst (_handle_request body s) = Ret response.
Proof.
  unfold _handle_request, try_except. intros H.
  destruct (forward body s) as [r s']. simpl in H. now subst r.
Qed.

Lemma read_bad_line timeout b o pid c line latency rest e :
  process b = Some pid ->
  nth_error (children o) pid = Some c ->
  stdout_queue c = (line, latency) :: rest ->
  Qle_bool timeout latency = false ->
  Codec.loads line = Raise e ->
  fst (read_response timeout (b, o)) = Raise e.
Proof.
  intros Hp Hc Hq Hlat Hline. unfold read_response. unfold bind at 1.
  cbv beta iota delta [wait_for_readline bind get modify raise ret fst snd].
  rewrite Hp. cbv beta iota. rewrite Hc, Hq, Hlat.
  unfold lift. now rewrite Hline.
Qed.

(** The child after a read that got its line: only the stdout queue
    has changed. *)
Lemma read_keeps_stdin timeout b o pid c line latency rest :
  process b = Some pid ->
  nth_error (children o) pid = Some c ->
  stdout_queue c = (line, latency) :: rest ->
  Qle_bool timeout latency = false ->
  exists c',
    nth_error (children (snd (snd (read_response timeout (b, o))))) pid
    = Some c'
    /\ stdin_lines c' = stdin_lines c.
Proof.
  intros Hp Hc Hq Hlat. unfold read_response. unfold bind at 1.
  assert (Hr : wait_for_readline timeout (b, o)
               = (Ret line,
                  (b, mk_os (update_nth pid
                               (fun c => mk_child (status c) (stdin_lines c)
                                           (age latency rest) (behaviour c))
                               (children o))
                            (listening o)))).
  { cbv beta iota delta [wait_for_readline bind get modify raise ret fst snd].
    rewrite Hp. cbv beta iota. now rewrite Hc, Hq, Hlat. }
  rewrite Hr. unfold bind, lift, ret.
  destruct (Codec.loads line); simpl;
    (eexists; split; [apply (nth_error_update_nth _ _ _ _ Hc) | reflexivity]).
Qed.



End HandleRequestCases.



(* ===================================================================== *)
(** ** The query methods of a client *)
(* ===================================================================== *)

Section ClientQueriesFacts.

Import MCPClient ClientQueries.

Variable settings : Settings.
Variable net : transport.

Lemma connect_request_id c :
  _request_id (snd (connect settings net c)) = _request_id c + 1.
Proof.
  rewrite connect_eq. cbv zeta.
  destruct (has_result _) as [[|]|e]; simpl; try reflexivity.
  destruct (py_getitem _ _) as [result|e]; simpl; try reflexivity.
  destruct (py_get _ _ _) as [caps|e]; reflexivity.
Qed.

Lemma connect_server_id c :
  server_id (snd (connect settings net c)) = server_id c
  /\ name (snd (connect settings net c)) = name c.
Proof.
  rewrite connect_eq. cbv zeta. unfold with_session.
  destruct (has_result _) as [[|]|e]; simpl;
    try (destruct (session c); split; reflexivity).
  destruct (py_getitem _ _) as [result|e]; simpl;
    try (destruct (session c); split; reflexivity).
  destruct (py_get _ _ _) as [caps|e]; simpl;
    destruct (session c); split; reflexivity.
Qed.

Lemma query_eq {A} method params (rest : json -> Py client A) c :
  query settings net method params rest c
  = rest (reply_of net method params (ensured settings net c))
         (set_request_id (_request_id (ensured settings net c) + 1)
                         (ensured settings net c)).
Proof.
  unfold query. unfold bind at 1. rewrite ensure_connected_eq.
  unfold bind at 1. now rewrite send_request_eq.
Qed.

Lemma pure_ret {A} (a : A) : pure (ret a : Py client A).
Proof. intros s. reflexivity. Qed.

Lemma pure_lift {A} (r : res A) : pure (lift r : Py client A).
Proof. intros s. reflexivity. Qed.

Lemma pure_bind {A B} (m : Py client A) (k : A -> Py client B) :
  pure m -> (forall a, pure (k a)) -> pure (bind m k).
Proof.
  intros Hm Hk s. unfold bind. specialize (Hm s).
  destruct (m s) as [[a|e] s']; simpl in *; subst; auto. apply Hk.
Qed.

Lemma ensured_request_id c :
  _request_id (ensured settings net c)
  = _request_id c + (if is_connected c then 0 else 1).
Proof.
  unfold ensured. destruct (is_connected c); [lia | apply connect_request_id].
Qed.

(** The state a query leaves: the lazily reconnected client with its
    request id advanced by one. *)
Lemma query_state {A} method params (rest : json -> Py client A) c :
  (forall response, pure (rest response)) ->
  snd (query settings net method params rest c)
  = set_request_id (_request_id (ensured settings net c) + 1)
                   (ensured settings net c).
Proof. intros Hrest. rewrite query_eq. apply Hrest. Qed.

Ltac pure_tac :=
  repeat first
    [ apply pure_ret | apply pure_lift
    | apply pure_bind; [|intros ?]
    | match goal with
      | |- pure (if ?b then _ else _) => destruct b
      | |- pure (match ?x with _ => _ end) => destruct x
      end ].

Lemma list_resources_query :
  list_resources settings net
  = query settings net "resources/list" JNull
      (fun response =>
         bind (lift (has_result response))
              (fun ok : bool =>
                 if ok then
                   bind (lift (py_getitem response "result"))
                        (fun result =>
                           lift (py_get result "resources" (JList [])))
                 else ret (JList []))).
Proof. reflexivity. Qed.

Lemma list_tools_query :
  list_tools settings net
  = query settings net "tools/list" JNull
      (fun response =>
         bind (lift (has_result response))
              (fun ok : bool =>
                 if ok then
                   bind (lift (py_getitem response "result"))
                        (fun result => lift (py_get result "tools" (JList [])))
                 else ret (JList []))).
Proof. reflexivity. Qed.

Lemma list_prompts_query :
  list_prompts settings net
  = query settings net "prompts/list" JNull
      (fun response =>
         bind (lift (has_result response))
              (fun ok : bool =>
                 if ok then
                   bind (lift (py_getitem response "result"))
                        (fun result =>
                           lift (py_get result "prompts" (JList [])))
                 else ret (JList []))).
Proof. reflexivity. Qed.

Lemma call_tool_query tool_name arguments :
  call_tool settings net tool_name arguments
  = query settings net "tools/call" (call_tool_params tool_name arguments)
      (fun response =>
         bind (lift (has_result response))
              (fun ok : bool =>
                 if ok then lift (py_getitem response "result")
                 else ret JNull)).
Proof. reflexivity. Qed.

Lemma read_resource_query resource_uri :
  read_resource settings net resource_uri
  = query settings net "resources/read" (JDict [("uri", JStr resource_uri)])
      (fun response =>
         bind (lift (has_result response))
              (fun ok : bool =>
                 if ok then lift (py_getitem response "result")
                 else ret JNull)).
Proof. reflexivity. Qed.

Lemma get_prompt_query prompt_name arguments :
  get_prompt settings net prompt_name arguments
  = query settings net "prompts/get" (get_prompt_params prompt_name arguments)
      (fun response =>
         bind (lift (has_result response))
              (fun ok : bool =>
                 if ok then
                   bind (lift (py_getitem response "result"))
                        (fun result =>
                           bind (lift (py_get result "messages" (JList [])))
                                (fun messages =>
                                   match first_message messages with
                                   | Some first =>
                                       bind (lift first)
                                            (fun message =>
                                               bind (lift (py_get message
                                                             "content"
                                                             (JDict [])))
                                                    (fun content =>
                                                       lift (py_get content
                                                               "text"
                                                               (JStr EmptyString))))
                                   | None => ret JNull
                                   end))
                 else ret JNull)).
Proof. reflexivity. Qed.

(** X1.  Request ids are used once and in increasing order: each of the
    six query methods leaves the request counter one higher when the
    client was flagged connected and two higher when it was not (the
    lazy [connect] sends its own request first), whatever the peer
    answers; the request of [_send_request] carries the counter's new
    value. *)
Theorem query_methods_advance_request_id (c : client) :
  let step := if is_connected c then 1 else 2 in
  _request_id (snd (list_resources settings net c)) = _request_id c + step
  /\ _request_id (snd (list_tools settings net c)) = _request_id c + step
  /\ _request_id (snd (list_prompts settings net c)) = _request_id c + step
  /\ (forall uri,
        _request_id (snd (read_resource settings net uri c))
        = _request_id c + step)
  /\ (forall tool_name arguments,
        _request_id (snd (call_tool settings net tool_name arguments c))
        = _request_id c + step)
  /\ (forall prompt_name arguments,
        _request_id (snd (get_prompt settings net prompt_name arguments c))
        = _request_id c + step)
  /\ (forall method params,
        py_getitem (make_request (_request_id c + 1) method params) "id"
        = Ret (JInt (_request_id c + 1))
        /\ _request_id (snd (_send_request net method params c))
           = _request_id c + 1).
Proof.
  cbv zeta.
  assert (Hid : forall A method params (rest : json -> Py client A),
             (forall response, pure (rest response)) ->
             _request_id (snd (query settings net method params rest c))
             = _request_id c + (if is_connected c then 1 else 2)).
  { intros A method params rest Hrest. rewrite query_state by exact Hrest.
    simpl. rewrite ensured_request_id. destruct (is_connected c); lia. }
  split; [rewrite list_resources_query; apply Hid; intros r; pure_tac|].
  split; [rewrite list_tools_query; apply Hid; intros r; pure_tac|].
  split; [rewrite list_prompts_query; apply Hid; intros r; pure_tac|].
  split; [intros uri; rewrite read_resource_query; apply Hid; intros r;
          pure_tac|].
  split; [intros t a; rewrite call_tool_query; apply Hid; intros r; pure_tac|].
  split; [intros p a; rewrite get_prompt_query; apply Hid; intros r;
          pure_tac|].
  intros method params. split; [reflexivity|].
  now rewrite send_request_eq.
Qed.

End ClientQueriesFacts.

Section ClientFailureFacts.

Import MCPClient ClientQueries.

Variable settings : Settings.
Variable net : transport.

Lemma connect_failing c :
  failing_peer net c ->
  connect settings net c
  = (Ret false, set_request_id (_request_id c + 1) (with_session settings c)).
Proof.
  intros Hfail. rewrite connect_eq. cbv zeta.
  rewrite failed_reply_has_no_result; [reflexivity|].
  rewrite with_session_endpoint. apply Hfail.
Qed.

Lemma ensured_failing c :
  failing_peer net c ->
  endpoint (ensured settings net c) = endpoint c
  /\ is_connected (ensured settings net c) = is_connected c.
Proof.
  intros Hfail. unfold ensured. destruct (is_connected c) eqn:E; auto.
  rewrite connect_failing by exact Hfail. simpl.
  now rewrite with_session_endpoint, with_session_connected.
Qed.

Lemma query_failing {A} method params (rest : json -> Py client A) c :
  failing_peer net c ->
  has_result (reply_of net method params (ensured settings net c)) = Ret false.
Proof.
  intros Hfail. apply failed_reply_has_no_result.
  destruct (ensured_failing c Hfail) as [-> _]. apply Hfail.
Qed.

(** X2.  On a peer where every request fails below JSON-RPC (the post
    raises or times out, the status is not 200, the body does not
    decode, the object has no [result]) no method of the client raises:
    the three list methods return the empty list, [read_resource],
    [call_tool] and [get_prompt] return null, [connect] returns false;
    and a query does not change the connected flag. *)
Theorem client_methods_on_failing_peer (c : client) :
  failing_peer net c ->
  fst (list_resources settings net c) = Ret (JList [])
  /\ fst (list_tools settings net c) = Ret (JList [])
  /\ fst (list_prompts settings net c) = Ret (JList [])
  /\ (forall uri, fst (read_resource settings net uri c) = Ret JNull)
  /\ (forall tool_name arguments,
        fst (call_tool settings net tool_name arguments c) = Ret JNull)
  /\ (forall prompt_name arguments,
        fst (get_prompt settings net prompt_name arguments c) = Ret JNull)
  /\ fst (connect settings net c) = Ret false
  /\ is_connected (snd (list_tools settings net c)) = is_connected c
  /\ (forall tool_name arguments,
        is_connected (snd (call_tool settings net tool_name arguments c))
        = is_connected c).
Proof.
  intros Hfail.
  assert (Hq : forall method params,
             has_result (reply_of net method params (ensured settings net c))
             = Ret false).
  { intros method params.
    apply (query_failing method params (fun _ => ret tt) c Hfail). }
  split; [rewrite list_resources_query, query_eq; unfold bind, lift;
          now rewrite Hq|].
  split; [rewrite list_tools_query, query_eq; unfold bind, lift;
          now rewrite Hq|].
  split; [rewrite list_prompts_query, query_eq; unfold bind, lift;
          now rewrite Hq|].
  split; [intros uri; rewrite read_resource_query, query_eq;
          unfold bind, lift; now rewrite Hq|].
  split; [intros t a; rewrite call_tool_query, query_eq; unfold bind, lift;
          now rewrite Hq|].
  split; [intros p a; rewrite get_prompt_query, query_eq; unfold bind, lift;
          now rewrite Hq|].
  split; [now rewrite connect_failing|].
  split.
  { rewrite list_tools_query, query_state.
    - simpl. apply (ensured_failing c Hfail).
    - intros r. apply pure_bind; [apply pure_lift|]. intros [|].
      + apply pure_bind; [apply pure_lift|]. intros x. apply pure_lift.
      + apply pure_ret. }
  intros t a. rewrite call_tool_query, query_state.
  - simpl. apply (ensured_failing c Hfail).
  - intros r. apply pure_bind; [apply pure_lift|]. intros [|].
    + apply pure_lift.
    + apply pure_ret.
Qed.

End ClientFailureFacts.

Section ClientLifecycleFacts.

Import MCPClient ClientQueries.

Variable settings : Settings.
Variable net : transport.

Lemma disconnect_eq c :
  disconnect c
  = (Ret tt, set_is_connected false (set_session None c)).
Proof.
  unfold disconnect, try_except, bind, get, modify, ret.
  destruct c as [sid ep nm [s|] caps conn rid]; reflexivity.
Qed.


(** X4.  [health_check] never raises and never reconnects.  It returns
    true exactly when the client has a session and the [ping] request is
    answered with status 200 and a body that decodes to something other
    than null; a JSON-RPC error object therefore counts as healthy, and
    a client without session is reported unhealthy whatever the peer.
    The connected flag is neither read nor changed. *)
Theorem health_check_iff (c : client) :
  (exists b, fst (health_check net c) = Ret b)
  /\ (fst (health_check net c) = Ret true
      <-> exists s v,
          session c = Some s
          /\ net (endpoint c) (make_request (_request_id c + 1) "ping" JNull)
             = PostResponse 200 (Ret v)
          /\ v <> JNull)
  /\ (session c = None -> fst (health_check net c) = Ret false)
  /\ is_connected (snd (health_check net c)) = is_connected c
  /\ session (snd (health_check net c)) = session c.
Proof.
  assert (Heq : health_check net c
                = (Ret (match reply_of net "ping" JNull c with
                        | JNull => false
                        | _ => true
                        end),
                   set_request_id (_request_id c + 1) c)).
  { unfold health_check, try_except, bind. now rewrite send_request_eq. }
  rewrite Heq. simpl. split; [eauto|]. split; [|split; [|split]]; auto.
  - unfold reply_of. split.
    + destruct (session c) as [s|]; [|discriminate].
      destruct (net _ _) as [e|status body]; [discriminate|].
      destruct (status =? 200) eqn:E; [|discriminate].
      apply Z.eqb_eq in E. subst status.
      destruct body as [v|e]; [|discriminate].
      intros H. exists s, v. repeat split; auto.
      intros ->. discriminate.
    + intros (s & v & -> & -> & Hv). simpl.
      destruct v; congruence.
  - intros Hs. unfold reply_of. now rewrite Hs.
Qed.

End ClientLifecycleFacts.

(** X2 at a connected client whose peer has gone. *)
Lemma client_methods_on_failing_peer_witness :
  fst (MCPClient.list_tools default_settings dead_net (connected_client "alpha"))
  = Ret (JList [])
  /\ fst (ClientQueries.get_prompt default_settings dead_net "greet" JNull
            (connected_client "alpha")) = Ret JNull.
Proof.
  destruct (client_methods_on_failing_peer default_settings dead_net
              (connected_client "alpha"))
    as (_ & Htools & _ & _ & _ & Hprompt & _).
  - intros request. apply tf_raises.
  - split; [exact Htools | apply Hprompt].
Defined.


(** X4 at a disconnected client on a peer that would answer. *)
Lemma health_check_iff_witness :
  fst (MCPClient.health_check stub_net
         (snd (MCPClient.disconnect (connected_client "alpha")))) = Ret false.
Proof.
  destruct (health_check_iff stub_net
              (snd (MCPClient.disconnect (connected_client "alpha"))))
    as (_ & _ & H & _).
  apply H. reflexivity.
Defined.

(* ===================================================================== *)
(** ** More facts about dicts *)
(* ===================================================================== *)

Section MoreDictFacts.

Context {V : Type}.
Implicit Types (d : dict V) (k : string) (v : V).

Lemma dget_ddel_ne k k' d : k <> k' -> dget k' (ddel k d) = dget k' d.
Proof.
  intros Hne. induction d as [|[k0 v0] r IH]; simpl; auto.
  destruct (String.eqb k k0) eqn:E; simpl.
  - apply String.eqb_eq in E. subst k0.
    destruct (String.eqb k' k) eqn:E'; auto.
    apply String.eqb_eq in E'. congruence.
  - now rewrite IH.
Qed.

Lemma ddel_absent k d : dmem k d = false -> ddel k d = d.
Proof.
  unfold dmem. induction d as [|[k0 v0] r IH]; simpl; auto.
  destruct (String.eqb k k0); [discriminate|]. intros H. now rewrite IH.
Qed.

Lemma dkeys_ddel_incl k k' d : In k' (dkeys (ddel k d)) -> In k' (dkeys d).
Proof.
  unfold dkeys. induction d as [|[k0 v0] r IH]; simpl; auto.
  destruct (String.eqb k k0); simpl; intuition.
Qed.

Lemma NoDup_ddel k d : NoDup (dkeys d) -> NoDup (dkeys (ddel k d)).
Proof.
  unfold dkeys. induction d as [|[k0 v0] r IH]; simpl; auto.
  intros Hnd. inversion Hnd as [|? ? Hfresh Hnd']; subst.
  destruct (String.eqb k k0); simpl; auto.
  constructor; auto. intros Hin. apply Hfresh.
  now apply (dkeys_ddel_incl k).
Qed.

Lemma dmem_ddel k d : NoDup (dkeys d) -> dmem k (ddel k d) = false.
Proof.
  unfold dkeys. induction d as [|[k0 v0] r IH]; simpl; auto.
  intros Hnd. inversion Hnd as [|? ? Hfresh Hnd']; subst.
  destruct (String.eqb k k0) eqn:E.
  - apply String.eqb_eq in E. subst k0. now apply dmem_false_not_In.
  - unfold dmem in *. simpl. rewrite E. now apply IH.
Qed.

Lemma length_ddel k d :
  dmem k d = true -> S (List.length (ddel k d)) = List.length d.
Proof.
  unfold dmem. induction d as [|[k0 v0] r IH]; simpl; [discriminate|].
  destruct (String.eqb k k0); simpl; auto.
Qed.

Lemma dkeys_dset k v d :
  dkeys (dset k v d) = if dmem k d then dkeys d else (dkeys d ++ [k])%list.
Proof.
  unfold dmem, dkeys. induction d as [|[k0 v0] r IH]; simpl; auto.
  destruct (String.eqb k k0) eqn:E; simpl; auto.
  rewrite IH. now destruct (dget k r).
Qed.

Lemma NoDup_dset k v d : NoDup (dkeys d) -> NoDup (dkeys (dset k v d)).
Proof.
  intros Hnd. rewrite dkeys_dset. destruct (dmem k d) eqn:E; auto.
  apply dmem_false_not_In in E.
  apply NoDup_app; [exact Hnd | repeat constructor; intros [] |].
  intros x Hx [<-|[]]. contradiction.
Qed.

(** Overwriting the value of a present key in place. *)
Lemma dset_mid k v v' (pre post : dict V) :
  dmem k pre = false ->
  dset k v (pre ++ (k, v') :: post)%list = (pre ++ (k, v) :: post)%list.
Proof.
  unfold dmem. induction pre as [|[k0 v0] r IH]; simpl.
  - now rewrite String.eqb_refl.
  - destruct (String.eqb k k0); [discriminate|]. intros H. now rewrite IH.
Qed.

End MoreDictFacts.

Lemma dmem_dmap {V W} (f : V -> W) k (d : dict V) :
  dmem k (dmap f d) = dmem k d.
Proof.
  unfold dmem, dmap. induction d as [|[k0 v0] r IH]; simpl; auto.
  now destruct (String.eqb k k0).
Qed.

Lemma dget_dmap {V W} (f : V -> W) k (d : dict V) :
  dget k (dmap f d) = option_map f (dget k d).
Proof.
  unfold dmap. induction d as [|[k0 v0] r IH]; simpl; auto.
  now destruct (String.eqb k k0).
Qed.

(** Rewriting every value of a dict in place, one key after the other,
    yields the mapped dict. *)
Lemma fold_dset_dmap {V} (f : V -> V) (items pre : dict V) :
  NoDup (dkeys (pre ++ items)%list) ->
  fold_left (fun acc kv => dset (fst kv) (f (snd kv)) acc) items
            (dmap f pre ++ items)%list
  = dmap f (pre ++ items)%list.
Proof.
  revert pre. induction items as [|[k v] rest IH]; intros pre Hnd; simpl.
  - now rewrite !app_nil_r.
  - rewrite dset_mid.
    + specialize (IH (pre ++ [(k, v)])%list).
      unfold dmap in *. rewrite map_app, <- !app_assoc in IH. simpl in IH.
      apply IH. exact Hnd.
    + rewrite dmem_dmap. apply dmem_false_not_In.
      unfold dkeys in *. rewrite map_app in Hnd. simpl in Hnd.
      apply NoDup_remove_2 in Hnd. intros Hin. apply Hnd.
      apply in_or_app. now left.
Qed.

Lemma dkeys_dmap {V W} (f : V -> W) (d : dict V) : dkeys (dmap f d) = dkeys d.
Proof. unfold dkeys, dmap. rewrite map_map. reflexivity. Qed.

(** Setting fresh keys one after the other appends them in order. *)
Lemma fold_dset_append {V W} (g : V -> W) (items : dict V) (acc : dict W) :
  NoDup (dkeys acc ++ dkeys items) ->
  fold_left (fun a kv => dset (fst kv) (g (snd kv)) a) items acc
  = (acc ++ dmap g items)%list.
Proof.
  revert acc. induction items as [|[k v] rest IH]; intros acc Hnd; simpl.
  - now rewrite app_nil_r.
  - rewrite dset_fresh.
    + rewrite IH.
      * now rewrite <- app_assoc.
      * unfold dkeys in *. rewrite map_app, <- app_assoc. exact Hnd.
    + apply dmem_false_not_In. simpl in Hnd.
      apply NoDup_remove_2 in Hnd. intros Hin. apply Hnd.
      apply in_or_app. now left.
Qed.

(* ===================================================================== *)
(** ** Registering, removing and checking servers *)
(* ===================================================================== *)

Section ManagerFacts.

Import MCPClient MCPManager ManagerOps.

Variable settings : Settings.
Variable net : transport.

Lemma connect_true_connected c :
  fst (connect settings net c) = Ret true ->
  is_connected (snd (connect settings net c)) = true.
Proof.
  rewrite connect_eq. cbv zeta.
  destruct (has_result _) as [[|]|e]; simpl; try discriminate.
  destruct (py_getitem _ _) as [result|e]; simpl; try discriminate.
  destruct (py_get _ _ _) as [caps|e]; simpl; [reflexivity | discriminate].
Qed.

Lemma remove_server_eq server_id clients :
  remove_server server_id clients = (Ret tt, ddel server_id clients).
Proof.
  unfold remove_server.
  destruct (dget server_id clients) as [c|] eqn:Hc.
  - now rewrite disconnect_eq.
  - rewrite ddel_absent; [reflexivity|]. unfold dmem. now rewrite Hc.
Qed.

Lemma add_server_accepts server_id endpoint name clients :
  dmem server_id clients = false ->
  dlen clients < MAX_MCP_CONNECTIONS settings ->
  fst (connect settings net (MCPClient.init server_id endpoint name))
  = Ret true ->
  fst (add_server settings net server_id endpoint name clients) = Ret true.
Proof.
  intros Hnew Hlen Hconn. unfold add_server, add_server_enter. rewrite Hnew.
  apply Z.ltb_lt in Hlen. rewrite Z.geb_leb, Z.leb_antisym, Hlen. simpl.
  unfold add_server_finish.
  destruct (connect settings net (MCPClient.init server_id endpoint name))
    as [r c']. simpl in Hconn. now subst r.
Qed.

(** X5.  [add_server] never raises.  It returns true exactly when the
    id is new, the map is below the limit and the handshake of the new
    client succeeds; the client is then appended to the map under its
    id, flagged connected and bound to the given endpoint.  In every
    other case the map is left as it was.  The keys of the map stay
    distinct. *)
Theorem add_server_outcome (server_id endpoint name : string)
        (clients : clients_t) :
  let fresh := MCPClient.init server_id endpoint name in
  (exists b, fst (add_server settings net server_id endpoint name clients)
             = Ret b)
  /\ (fst (add_server settings net server_id endpoint name clients) = Ret true
      <-> dmem server_id clients = false
          /\ dlen clients < MAX_MCP_CONNECTIONS settings
          /\ fst (connect settings net fresh) = Ret true)
  /\ (fst (add_server settings net server_id endpoint name clients) = Ret true ->
      snd (add_server settings net server_id endpoint name clients)
      = (clients ++ [(server_id, snd (connect settings net fresh))])%list
      /\ is_connected (snd (connect settings net fresh)) = true
      /\ MCPClient.endpoint (snd (connect settings net fresh)) = endpoint)
  /\ (fst (add_server settings net server_id endpoint name clients) <> Ret true ->
      snd (add_server settings net server_id endpoint name clients) = clients)
  /\ (NoDup (dkeys clients) ->
      NoDup (dkeys (snd (add_server settings net server_id endpoint name
                           clients)))).
Proof.
  cbv zeta. unfold add_server, add_server_enter, add_server_finish.
  destruct (dmem server_id clients) eqn:Hmem.
  { simpl. repeat split; eauto; try discriminate; try tauto.
    intros (H & _). discriminate. }
  destruct (dlen clients >=? MAX_MCP_CONNECTIONS settings) eqn:Hfull.
  { simpl. rewrite Z.geb_leb in Hfull. apply Z.leb_le in Hfull.
    repeat split; eauto; try discriminate; try tauto.
    intros (_ & H & _). lia. }
  rewrite Z.geb_leb in Hfull. apply Z.leb_gt in Hfull.
  destruct (connect_returns settings net
              (MCPClient.init server_id endpoint name)) as [b Hb].
  pose proof (connect_true_connected
                (MCPClient.init server_id endpoint name)) as Hflag.
  pose proof (connect_endpoint settings net
                (MCPClient.init server_id endpoint name)) as Hep.
  destruct (connect settings net (MCPClient.init server_id endpoint name))
    as [r c']. simpl in *. subst r.
  destruct b; simpl.
  - repeat split; eauto; try tauto.
    + now apply dset_fresh.
    + intros Hnd. now apply NoDup_dset.
  - repeat split; eauto; try discriminate; try tauto.
Qed.

(** X6.  [remove_server] never raises.  Afterwards the id is not a key
    of the map and every other entry is as before; an absent id leaves
    the map untouched; a present one makes the map one entry shorter;
    the keys stay distinct. *)
Theorem remove_server_outcome (server_id : string) (clients : clients_t) :
  NoDup (dkeys clients) ->
  fst (remove_server server_id clients) = Ret tt
  /\ dmem server_id (snd (remove_server server_id clients)) = false
  /\ (forall k, k <> server_id ->
                dget k (snd (remove_server server_id clients)) = dget k clients)
  /\ (dmem server_id clients = false ->
      snd (remove_server server_id clients) = clients)
  /\ (dmem server_id clients = true ->
      dlen (snd (remove_server server_id clients)) = dlen clients - 1)
  /\ NoDup (dkeys (snd (remove_server server_id clients))).
Proof.
  intros Hnd. unfold remove_server, dmem.
  destruct (dget server_id clients) as [c|] eqn:Hc.
  - rewrite disconnect_eq. simpl.
    split; [reflexivity|]. split; [now apply dmem_ddel|].
    split; [intros k Hk; apply dget_ddel_ne; congruence|].
    split; [discriminate|]. split; [|now apply NoDup_ddel].
    intros _. unfold dlen.
    assert (Hm : dmem server_id clients = true) by (unfold dmem; now rewrite Hc).
    pose proof (length_ddel server_id clients Hm). lia.
  - simpl. split; [reflexivity|]. unfold dmem. rewrite Hc.
    repeat split; auto. discriminate.
Qed.

(** X7.  Removing a server frees its slot: in a manager within the
    limit (full or not), after [remove_server] of a registered id,
    [add_server] of a new id whose handshake succeeds returns true. *)
Theorem remove_then_add (removed server_id endpoint name : string)
        (clients : clients_t) :
  NoDup (dkeys clients) ->
  dlen clients <= MAX_MCP_CONNECTIONS settings ->
  dmem removed clients = true ->
  dmem server_id clients = false ->
  fst (connect settings net (MCPClient.init server_id endpoint name))
  = Ret true ->
  fst (add_server settings net server_id endpoint name
         (snd (remove_server removed clients))) = Ret true.
Proof.
  intros Hnd Hlen Hin Hnew Hconn.
  rewrite remove_server_eq. simpl. apply add_server_accepts; auto.
  - unfold dmem in *. rewrite dget_ddel_ne; [exact Hnew|].
    intros ->. rewrite Hin in Hnew. discriminate.
  - pose proof (length_ddel removed clients Hin). unfold dlen in *. lia.
Qed.

Lemma health_check_eq c :
  health_check net c
  = (Ret (healthy net c), set_request_id (_request_id c + 1) c).
Proof.
  unfold healthy, health_check, try_except, bind.
  now rewrite send_request_eq.
Qed.

Lemma health_check_loop_eq items :
  forall results clients,
    health_check_loop net items results clients
    = (Ret (fold_left
              (fun a kv => dset (fst kv) (healthy net (snd kv)) a)
              items results),
       fold_left
         (fun a kv =>
            dset (fst kv)
                 (set_request_id (_request_id (snd kv) + 1) (snd kv)) a)
         items clients).
Proof.
  induction items as [|[k c] rest IH]; intros results clients; simpl.
  - reflexivity.
  - rewrite health_check_eq. apply IH.
Qed.

(** X8.  [health_check_all] never raises; its result has exactly the
    ids of the map, in the order of the map, each with what the
    [health_check] of its own client reports, so one unhealthy server
    changes nothing for the others; and it leaves every client's
    connected flag as it was, an unhealthy server included. *)
Theorem health_check_all_entries (clients : clients_t) :
  NoDup (dkeys clients) ->
  exists results,
    fst (health_check_all net clients) = Ret results
    /\ dkeys results = dkeys clients
    /\ (forall sid,
          dget sid results = option_map (healthy net) (dget sid clients))
    /\ (forall sid c,
          dget sid clients = Some c ->
          exists c',
            dget sid (snd (health_check_all net clients)) = Some c'
            /\ is_connected c' = is_connected c
            /\ session c' = session c).
Proof.
  intros Hnd. unfold health_check_all. rewrite health_check_loop_eq.
  rewrite (fold_dset_append (healthy net) clients []) by exact Hnd.
  pose proof (fold_dset_dmap
                (fun c => set_request_id (_request_id c + 1) c) clients []
                Hnd) as Hcl.
  simpl in Hcl. simpl. rewrite Hcl.
  eexists. split; [reflexivity|].
  split; [apply dkeys_dmap|]. split; [intros sid; apply dget_dmap|].
  intros sid c Hc. rewrite dget_dmap, Hc. simpl. eauto.
Qed.

End ManagerFacts.

(* ===================================================================== *)
(** ** Loading a configuration file *)
(* ===================================================================== *)

Section ConfigLoaderFacts.

Import AWSQ ConfigLoader.

Lemma load_configuration_dict file :
  load_configuration file <> JNull ->
  exists d, load_configuration file = JDict d.
Proof.
  destruct file as [config|e]; [|now intros []]. unfold load_configuration.
  destruct config as [| | | | |d]; try (now intros []). simpl.
  destruct (dget "name" d) as [name|]; [|now intros []].
  destruct (truthy name); [eauto | now intros []].
Qed.

(** X9.  [load_configuration] returns either [None] or the decoded file
    itself, and the latter only when the file decodes to a dict whose
    [name] is truthy: an unreadable or undecodable file, a JSON value
    that is no object, an object without [name] and an object with an
    empty or null [name] all give [None]. *)
Theorem load_configuration_result (file : res json) :
  (load_configuration file = JNull
   \/ exists d name,
       file = Ret (JDict d)
       /\ load_configuration file = JDict d
       /\ dget "name" d = Some name
       /\ truthy name = true)
  /\ (forall e, file = Raise e -> load_configuration file = JNull)
  /\ (forall v, file = Ret v -> is_dict v = false ->
                load_configuration file = JNull)
  /\ (forall d, file = Ret (JDict d) -> dmem "name" d = false ->
                load_configuration file = JNull)
  /\ (forall d name, file = Ret (JDict d) -> dget "name" d = Some name ->
                     truthy name = false -> load_configuration file = JNull).
Proof.
  split; [|split; [|split; [|split]]].
  - destruct file as [config|e]; [|now left]. unfold load_configuration.
    destruct config as [| | | | |d]; try (now left). simpl.
    destruct (dget "name" d) as [name|] eqn:Hn; [|now left].
    destruct (truthy name) eqn:Ht; [|now left].
    right. exists d, name. auto.
  - now intros e ->.
  - intros v -> Hv. destruct v; try reflexivity. discriminate.
  - intros d -> Hn. unfold load_configuration, dmem in *. simpl.
    now destruct (dget "name" d).
  - intros d name -> Hn Ht. unfold load_configuration. simpl.
    now rewrite Hn, Ht.
Qed.

(** X10.  On a configuration that [load_configuration] let through,
    [extract_mcp_servers] returns the empty dict when there is no
    [mcpServers] key, returns when [mcpServers] is an object, and raises
    [AttributeError] when [mcpServers] is anything else (null, a list, a
    string): the entries are guarded one by one, the container is not. *)
Theorem extract_from_loaded (file : res json) (config : json) :
  load_configuration file = config ->
  config <> JNull ->
  exists d,
    config = JDict d
    /\ (dmem "mcpServers" d = false -> extract_mcp_servers config = Ret [])
    /\ (forall entries,
          dget "mcpServers" d = Some (JDict entries) ->
          extract_mcp_servers config = Ret (extract_loop entries []))
    /\ (forall v,
          dget "mcpServers" d = Some v -> is_dict v = false ->
          exists e,
            extract_mcp_servers config = Raise e
            /\ exn_cls e = AttributeError).
Proof.
  intros Hload Hsome.
  destruct (load_configuration_dict file) as [d Hd]; [congruence|].
  exists d. split; [congruence|].
  replace config with (JDict d) by congruence.
  unfold extract_mcp_servers, rbind, py_in, py_getitem, dmem.
  split; [|split].
  - intros H. now destruct (dget "mcpServers" d).
  - intros entries ->. reflexivity.
  - intros v -> Hv. simpl.
    destruct v; try discriminate; (eexists; split; reflexivity).
Qed.

End ConfigLoaderFacts.

(** X10 at a file whose [mcpServers] is null. *)
Lemma extract_from_loaded_witness :
  exists e,
    AWSQ.extract_mcp_servers
      (JDict [("name", JStr "dev"); ("mcpServers", JNull)]) = Raise e
    /\ exn_cls e = AttributeError.
Proof.
  destruct (extract_from_loaded
              (Ret (JDict [("name", JStr "dev"); ("mcpServers", JNull)]))
              (JDict [("name", JStr "dev"); ("mcpServers", JNull)]) eq_refl)
    as (d & Hd & _ & _ & H).
  - discriminate.
  - injection Hd as <-. apply (H JNull); reflexivity.
Defined.

(** X9 at a file without name and at a complete one. *)
Lemma load_configuration_result_witness :
  ConfigLoader.load_configuration (Ret (JDict [("mcpServers", JDict [])]))
  = JNull
  /\ ConfigLoader.load_configuration (Ret (JDict [("name", JStr EmptyString)]))
     = JNull.
Proof.
  split.
  - destruct (load_configuration_result
                (Ret (JDict [("mcpServers", JDict [])])))
      as (_ & _ & _ & H & _).
    apply (H [("mcpServers", JDict [])]); reflexivity.
  - destruct (load_configuration_result
                (Ret (JDict [("name", JStr EmptyString)])))
      as (_ & _ & _ & _ & H).
    apply (H [("name", JStr EmptyString)] (JStr EmptyString)); reflexivity.
Defined.

(* ===================================================================== *)
(** ** The life of a bridge *)
(* ===================================================================== *)

Section BridgeLifeFacts.

Import AWSQ STDIOBridge.

(** [d.update(other)]: the entries of [other] win. *)
Lemma dget_dupdate {V} (other d : dict V) k :
  NoDup (dkeys other) ->
  dget k (dupdate d other)
  = match dget k other with
    | Some v => Some v
    | None => dget k d
    end.
Proof.
  unfold dupdate. revert d.
  induction other as [|[k0 v0] r IH]; intros d Hnd; simpl; auto.
  simpl in Hnd. inversion Hnd as [|? ? Hfresh Hnd']; subst.
  rewrite (IH _ Hnd').
  destruct (String.eqb k k0) eqn:E.
  - apply String.eqb_eq in E. subst k0.
    apply dmem_false_not_In in Hfresh. unfold dmem in Hfresh.
    destruct (dget k r); [discriminate|]. apply dget_dset_eq.
  - apply String.eqb_neq in E.
    destruct (dget k r); auto. apply dget_dset_ne. congruence.
Qed.

Lemma start_eq E b o :
  start E (b, o)
  = match merge_env (environ E) (AWSQ.env (config b)) with
    | Raise e => (Raise e, (b, o))
    | Ret env =>
        match command_line (config b) with
        | Raise e => (Raise e, (b, o))
        | Ret cmd =>
            match spawn E cmd env with
            | Raise e => (Raise e, (b, o))
            | Ret react =>
                let o1 := mk_os (children o ++ [mk_child Running [] [] react])
                                (listening o) in
                let pid := List.length (children o) in
                match pick_port E with
                | Raise e =>
                    (Raise e,
                     (mk_bridge (config b) (Some pid) (bridge_port b)
                                (bridge_server b), o1))
                | Ret port =>
                    let b2 := mk_bridge (config b) (Some pid) (Some port)
                                        (bridge_server b) in
                    match runner_setup E with
                    | Raise e => (Raise e, (b2, o1))
                    | Ret _ =>
                        match site_start E port with
                        | Raise e => (Raise e, (b2, o1))
                        | Ret _ =>
                            (Ret (bridge_url port),
                             (mk_bridge (config b) (Some pid) (Some port)
                                        (Some {| sites := [port] |}),
                              mk_os (children o
                                       ++ [mk_child Running [] [] react])
                                    (listening o ++ [port])))
                        end
                    end
                end
            end
        end
    end.
Proof.
  cbv beta iota zeta delta [start try_except bind get lift modify raise ret
                            fst snd].
  destruct (merge_env _ _) as [env|e1]; [|reflexivity].
  destruct (command_line _) as [cmd|e2]; [|reflexivity].
  destruct (spawn E cmd env) as [react|e3]; [|reflexivity].
  destruct (pick_port E) as [port|e4]; [|reflexivity].
  destruct (runner_setup E) as [[]|e5]; [|reflexivity].
  destruct (site_start E port) as [[]|e6]; reflexivity.
Qed.

(** X11.  What a successful [start] has handed to the subprocess: the
    command followed by the descriptor's [args] (nothing more when
    [args] is absent or empty), and an environment in which every
    variable of the descriptor's [env] overrides [os.environ] and every
    other variable of [os.environ] is kept; a descriptor without [env]
    hands [os.environ] over unchanged.  The returned URL is
    [http://localhost:] followed by the port that is now bound. *)
Theorem start_spawn_arguments (E : start_env) (b : bridge) (o : OS)
        (url : string) (s' : st) :
  start E (b, o) = (Ret url, s') ->
  exists env cmd port,
    returns (spawn E cmd env) = true
    /\ cmd = command (config b)
               :: match args (config b) with JList l => l | _ => [] end
    /\ (truthy (AWSQ.env (config b)) = false -> env = environ E)
    /\ (forall d k,
          AWSQ.env (config b) = JDict d ->
          NoDup (dkeys d) ->
          dget k env = match dget k d with
                       | Some v => Some v
                       | None => dget k (environ E)
                       end)
    /\ url = bridge_url port
    /\ bridge_port (fst s') = Some port
    /\ In port (listening (snd s')).
Proof.
  rewrite start_eq.
  destruct (merge_env _ _) as [env|e1] eqn:Henv; [|discriminate].
  destruct (command_line _) as [cmd|e2] eqn:Hcmd; [|discriminate].
  destruct (spawn E cmd env) as [react|e3] eqn:Hspawn; [|discriminate].
  cbv zeta.
  destruct (pick_port E) as [port|e4]; [|discriminate].
  destruct (runner_setup E) as [[]|e5]; [|discriminate].
  destruct (site_start E port) as [[]|e6]; [|discriminate].
  intros [= <- <-]. exists env, cmd, port.
  split; [now rewrite Hspawn|]. split.
  { unfold command_line in Hcmd.
    destruct (args (config b)) as [| | | |l|d];
      simpl in Hcmd; try (injection Hcmd as <-; reflexivity);
      try discriminate.
    - destruct b0; [discriminate | now injection Hcmd as <-].
    - destruct (negb (n =? 0)); [discriminate | now injection Hcmd as <-].
    - destruct (negb (String.eqb s EmptyString));
        [discriminate | now injection Hcmd as <-].
    - destruct l; now injection Hcmd as <-.
    - destruct d; [now injection Hcmd as <- | discriminate]. }
  split.
  { intros Hfalsy. unfold merge_env in Henv. rewrite Hfalsy in Henv.
    now injection Henv as <-. }
  split.
  { intros d k Hd Hnd. unfold merge_env in Henv. rewrite Hd in Henv.
    destruct d as [|kv r].
    - simpl in Henv. now injection Henv as <-.
    - assert (Ht : truthy (JDict (kv :: r)) = true) by reflexivity.
      rewrite Ht in Henv. injection Henv as Henv. rewrite <- Henv.
      exact (dget_dupdate (kv :: r) (environ E) k Hnd). }
  split; [reflexivity|]. split; [reflexivity|].
  simpl. apply in_or_app. right. now left.
Qed.

Lemma filter_not_port port l :
  ~ In port l ->
  filter (fun p => negb (existsb (Z.eqb p) [port])) l = l.
Proof.
  induction l as [|x r IH]; simpl; auto. intros Hnot.
  destruct (Z.eqb x port) eqn:E.
  - apply Z.eqb_eq in E. subst. exfalso. apply Hnot. now left.
  - simpl. f_equal. apply IH. tauto.
Qed.


End BridgeLifeFacts.

Section BridgeRequestFacts.

Import AWSQ STDIOBridge.

Lemma write_eq line b o pid c :
  process b = Some pid ->
  nth_error (children o) pid = Some c ->
  live c = true ->
  stdin_write_drain line (b, o)
  = (Ret tt, (b, mk_os (update_nth pid (receive line) (children o))
                       (listening o))).
Proof.
  intros Hp Hc Hl.
  cbv beta iota delta [stdin_write_drain bind get modify fst snd].
  rewrite Hp. cbv beta iota. now rewrite Hc, Hl.
Qed.

Lemma timeout_seconds_error v e :
  timeout_seconds v = Raise e -> is_timeout e = false.
Proof. destruct v; simpl; try discriminate; now intros [= <-]. Qed.

(** The handler on a bridge whose timeout is no number: the request has
    gone to the subprocess, the answer is never read. *)
Lemma handle_request_bad_timeout body data b o pid c e :
  Codec.loads body = Ret data ->
  process b = Some pid ->
  nth_error (children o) pid = Some c ->
  live c = true ->
  timeout_seconds (timeout (config b)) = Raise e ->
  _handle_request body (b, o)
  = (Ret (json_response (internal_error e) 500),
     (b, mk_os (update_nth pid (receive (Codec.dumps data ++ newline))
                           (children o))
               (listening o))).
Proof.
  intros Hbody Hp Hc Hl Ht.
  unfold _handle_request, try_except, forward.
  unfold bind at 1. unfold lift at 1. rewrite Hbody.
  unfold bind at 1. rewrite (write_eq _ b o pid c Hp Hc Hl).
  unfold bind at 1. unfold get at 1. cbv beta iota.
  unfold bind at 1. unfold lift at 1. simpl fst. rewrite Ht.
  now rewrite (timeout_seconds_error _ e Ht).
Qed.


Lemma update_nth_at {A} (f g : A -> A) l n c :
  nth_error l n = Some c -> f c = g c -> update_nth n f l = update_nth n g l.
Proof.
  revert n. induction l as [|y r IH]; intros [|n]; simpl; try discriminate.
  - now intros [= ->] ->.
  - intros Hn Hfg. now rewrite (IH n Hn Hfg).
Qed.

(** The handler when the answer to the request comes too late: the line
    stays on its way to the pipe. *)
Lemma handle_request_late body data b o pid c ms line lat :
  Codec.loads body = Ret data ->
  process b = Some pid ->
  nth_error (children o) pid = Some c ->
  live c = true ->
  timeout (config b) = JInt ms ->
  stdout_queue c = [] ->
  behaviour c (stdin_lines c) (Codec.dumps data ++ newline) = [(line, lat)] ->
  Qle_bool (inject_Z ms / inject_Z 1000) lat = true ->
  _handle_request body (b, o)
  = (Ret (json_response timeout_error 504),
     (b, mk_os (update_nth pid
                  (fun _ =>
                     mk_child (status c)
                       (stdin_lines c ++ [(Codec.dumps data ++ newline)%string])%list
                       (age (inject_Z ms / inject_Z 1000) [(line, lat)])
                       (behaviour c))
                  (children o))
               (listening o))).
Proof.
  intros Hbody Hp Hc Hl Ht Hq Hb Hlat.
  unfold _handle_request, try_except.
  rewrite (forward_reaches_read body data b o pid c ms); auto.
  unfold read_response. unfold bind at 1.
  cbv beta iota delta [wait_for_readline bind get modify raise ret fst snd].
  rewrite Hp. cbv beta iota.
  cbn [children].
  rewrite (nth_error_update_nth _ _ _ _ Hc).
  unfold receive at 1. cbn [stdout_queue]. rewrite Hq, Hb. cbn [app].
  rewrite Hlat. cbn [is_timeout exn_cls]. cbv beta iota.
  f_equal. f_equal. unfold set_children. cbn [snd fst children listening].
  f_equal. f_equal. rewrite update_nth_twice.
  apply (update_nth_at _ _ _ _ c Hc).
  unfold receive. cbn [status stdin_lines stdout_queue behaviour].
  now rewrite Hq, Hb.
Qed.

(** The handler when a line is in the pipe, or arrives, in time. *)
Lemma handle_request_answered body data b o pid c ms line lat rest response :
  Codec.loads body = Ret data ->
  process b = Some pid ->
  nth_error (children o) pid = Some c ->
  live c = true ->
  timeout (config b) = JInt ms ->
  (stdout_queue c ++ behaviour c (stdin_lines c) (Codec.dumps data ++ newline))%list
  = (line, lat) :: rest ->
  Qle_bool (inject_Z ms / inject_Z 1000) lat = false ->
  Codec.loads line = Ret response ->
  _handle_request body (b, o)
  = (Ret (json_response response 200),
     (b, mk_os (update_nth pid
                  (fun _ =>
                     mk_child (status c)
                       (stdin_lines c ++ [(Codec.dumps data ++ newline)%string])%list
                       (age lat rest)
                       (behaviour c))
                  (children o))
               (listening o))).
Proof.
  intros Hbody Hp Hc Hl Ht Hq Hlat Hline.
  unfold _handle_request, try_except.
  rewrite (forward_reaches_read body data b o pid c ms); auto.
  unfold read_response. unfold bind at 1.
  cbv beta iota delta [wait_for_readline bind get modify raise ret fst snd].
  rewrite Hp. cbv beta iota.
  cbn [children].
  rewrite (nth_error_update_nth _ _ _ _ Hc).
  unfold receive at 1. cbn [stdout_queue]. rewrite Hq, Hlat.
  unfold bind, lift. rewrite Hline.
  f_equal. unfold set_children. cbn [snd fst children listening].
  f_equal. f_equal. rewrite update_nth_twice.
  apply (update_nth_at _ _ _ _ c Hc).
  unfold receive. cbn [status stdin_lines stdout_queue behaviour].
  reflexivity.
Qed.


End BridgeRequestFacts.



(* ===================================================================== *)
(** ** Shutting the manager down *)
(* ===================================================================== *)

Section ShutdownFacts.

Import MCPClient MCPManager ManagerOps.

Variable settings : Settings.
Variable net : transport.

Lemma shutdown_loop_returns items :
  forall clients, exists clients',
    shutdown_loop items clients = (Ret tt, clients').
Proof.
  induction items as [|[k c] rest IH]; intros clients; simpl.
  - now exists clients.
  - rewrite disconnect_eq. apply IH.
Qed.

Lemma shutdown_then_use_core clients : shutdown clients = (Ret tt, []).
Proof.
  unfold shutdown.
  destruct (shutdown_loop_returns clients clients) as [clients' ->].
  reflexivity.
Qed.

(** X15.  [shutdown] never raises, whatever the state of the clients
    (connected or not, with or without a session), and leaves an empty
    map; the manager can be used again: [execute_tool] answers
    [Server not found] for every id, [get_all_resources] returns the
    empty dict, and, with a limit of at least one, [add_server] of any id
    whose handshake succeeds returns true. *)
Theorem shutdown_then_use (clients : clients_t) :
  shutdown clients = (Ret tt, [])
  /\ (forall server_id tool_name arguments,
        fst (execute_tool settings net server_id tool_name arguments
               (snd (shutdown clients))) = Ret not_found)
  /\ fst (get_all_resources settings net (snd (shutdown clients))) = Ret []
  /\ (forall server_id endpoint name,
        0 < MAX_MCP_CONNECTIONS settings ->
        fst (connect settings net (MCPClient.init server_id endpoint name))
        = Ret true ->
        fst (add_server settings net server_id endpoint name
               (snd (shutdown clients))) = Ret true).
Proof.
  rewrite shutdown_then_use_core. simpl. repeat split; auto.
  intros server_id endpoint name Hmax Hconn.
  now apply add_server_accepts.
Qed.

End ShutdownFacts.

(** X15 at a manager with one connected client. *)
Lemma shutdown_then_use_witness :
  fst (MCPManager.add_server default_settings stub_net "alpha"
         "http://localhost:9000" "alpha"
         (snd (ManagerOps.shutdown [("alpha", connected_client "alpha")])))
  = Ret true.
Proof.
  destruct (shutdown_then_use default_settings stub_net
              [("alpha", connected_client "alpha")]) as (_ & _ & _ & H).
  apply H; reflexivity.
Defined.

(** X5 at the empty manager on [stub_net]. *)
Lemma add_server_outcome_witness :
  snd (MCPManager.add_server default_settings stub_net "alpha"
         "http://localhost:9000" "alpha" [])
  = [("alpha", connected_client "alpha")].
Proof.
  destruct (add_server_outcome default_settings stub_net "alpha"
              "http://localhost:9000" "alpha" [])
    as (_ & Hiff & Hstate & _).
  destruct Hstate as (H & _); [|exact H].
  apply Hiff. repeat split; reflexivity.
Defined.

(** X6 at a manager with two clients. *)
Lemma remove_server_outcome_witness :
  PyDict.dget "beta"
    (snd (MCPManager.remove_server "alpha"
            [("alpha", connected_client "alpha");
             ("beta", connected_client "beta")]))
  = Some (connected_client "beta").
Proof.
  destruct (remove_server_outcome "alpha"
              [("alpha", connected_client "alpha");
               ("beta", connected_client "beta")])
    as (_ & _ & H & _).
  - simpl. constructor; [intros [H|[]]; discriminate|].
    constructor; [intros [] | constructor].
  - rewrite H; [reflexivity | discriminate].
Defined.

(** X7 at a manager that is full. *)
Lemma remove_then_add_witness :
  fst (MCPManager.add_server default_settings stub_net "delta"
         "http://localhost:9003" "delta"
         (snd (MCPManager.remove_server "alpha"
                 [("alpha", connected_client "alpha");
                  ("beta", connected_client "beta");
                  ("gamma", connected_client "gamma")])))
  = Ret true.
Proof.
  apply (remove_then_add default_settings stub_net "alpha" "delta"
           "http://localhost:9003" "delta").
  - simpl. constructor; [intros [H|[H|[]]]; discriminate|].
    constructor; [intros [H|[]]; discriminate|].
    constructor; [intros [] | constructor].
  - vm_compute. discriminate.
  - reflexivity.
  - reflexivity.
  - reflexivity.
Defined.

(** X8 at a manager with a healthy and a disconnected client. *)
Lemma health_check_all_entries_witness :
  exists results,
    fst (ManagerOps.health_check_all stub_net
           [("alpha", connected_client "alpha");
            ("beta", snd (MCPClient.disconnect (connected_client "beta")))])
    = Ret results
    /\ PyDict.dkeys results = ["alpha"; "beta"].
Proof.
  destruct (health_check_all_entries stub_net
              [("alpha", connected_client "alpha");
               ("beta", snd (MCPClient.disconnect (connected_client "beta")))])
    as (results & H1 & H2 & _).
  - simpl. constructor; [intros [H|[]]; discriminate|].
    constructor; [intros [] | constructor].
  - exists results. split; [exact H1 | exact H2].
Defined.

(** X11 at the file-system server of the examples. *)
Lemma start_spawn_arguments_witness :
  exists env cmd port,
    cmd = [JStr "npx"; JStr "fs-server"]
    /\ returns (STDIOBridge.spawn (good_env silent) cmd env) = true
    /\ STDIOBridge.bridge_url 40001 = STDIOBridge.bridge_url port.
Proof.
  destruct (start_spawn_arguments (good_env silent)
              (STDIOBridge.init fs_config) empty_os
              (STDIOBridge.bridge_url 40001) (started fs_config silent)
              eq_refl)
    as (env & cmd & port & H1 & H2 & _ & _ & H5 & _).
  exists env, cmd, port. split; [exact H2 | split; [exact H1 | exact H5]].
Defined.


(* ===================================================================== *)
(** ** Shutting the AWS Q manager down *)
(* ===================================================================== *)

Section AWSQShutdownFacts.

Import STDIOBridge AWSQManager.

Lemma nth_error_update_nth_ne {A} (f : A -> A) l n m :
  n <> m -> nth_error (update_nth n f l) m = nth_error l m.
Proof.
  revert n m. induction l as [|y r IH]; intros [|n] [|m] H; simpl; auto;
    try congruence.
Qed.

(** What [stop] leaves of the OS when the subprocess was live. *)
Lemma stop_live_children b o pid c :
  process b = Some pid ->
  nth_error (children o) pid = Some c ->
  live c = true ->
  exists b' o',
    stop (b, o) = (Ret tt, (b', o'))
    /\ children o' = update_nth pid (set_status Exited) (children o).
Proof.
  intros Hp Hc Hl. rewrite (stop_live b o pid c Hp Hc Hl).
  destruct (bridge_server b); eexists; eexists; split; reflexivity.
Qed.

Lemma stop_loop_live items :
  forall acc o,
    Forall (fun kv => runs_on o (snd kv)) items ->
    NoDup (map (fun kv => process (snd kv)) items) ->
    exists acc' o',
      stop_loop items (acc, o) = (Ret tt, (acc', o'))
      /\ Forall (fun kv => exited_on o' (snd kv)) items
      /\ (forall pid,
            ~ In (Some pid) (map (fun kv => process (snd kv)) items) ->
            nth_error (children o') pid = nth_error (children o) pid).
Proof.
  induction items as [|[name b] rest IH]; intros acc o Hall Hnd.
  - exists acc, o. simpl. repeat split; auto.
  - inversion Hall as [|? ? (pid & c & Hp & Hc & Hl) Hrest]; subst.
    inversion Hnd as [|? ? Hnotin Hnd']; subst. simpl in Hnotin.
    destruct (stop_live_children b o pid c Hp Hc Hl) as (b' & o1 & Hs & Ho1).
    simpl. rewrite Hs.
    destruct (IH (dset name b' acc) o1) as (acc' & o' & Hloop & Hex & Hframe).
    + apply Forall_forall. intros [n2 b2] Hin.
      rewrite Forall_forall in Hrest.
      destruct (Hrest _ Hin) as (pid2 & c2 & Hp2 & Hc2 & Hl2). simpl in *.
      exists pid2, c2. repeat split; auto.
      rewrite Ho1, nth_error_update_nth_ne; auto.
      intros ->. apply Hnotin. rewrite Hp, <- Hp2.
      apply (in_map (fun kv => process (snd kv)) _ _ Hin).
    + exact Hnd'.
    + exists acc', o'. split; [exact Hloop|]. split.
      * constructor; [|exact Hex]. simpl.
        exists pid, (set_status Exited c). repeat split; auto.
        rewrite Hframe; [|now rewrite <- Hp].
        rewrite Ho1. apply (nth_error_update_nth _ _ _ _ Hc).
      * intros pid' Hpid'. simpl in Hpid'.
        rewrite Hframe by tauto. rewrite Ho1.
        apply nth_error_update_nth_ne. intros ->. apply Hpid'. now left.
Qed.


(** X17.  [AWSQMCPManager.shutdown] does not guard [bridge.stop()]: when
    the subprocess of the first bridge has already exited, it raises
    [ProcessLookupError] and has done nothing, with no other bridge
    stopped, no client disconnected and no map cleared. *)
Theorem awsq_shutdown_aborts (m : manager) (o : OS) (name : string)
        (b : bridge) (rest : dict bridge) :
  stdio_bridges m = (name, b) :: rest ->
  exited_on o b ->
  shutdown (m, o) = (Raise (Exn ProcessLookupError EmptyString), (m, o)).
Proof.
  intros Hm (pid & c & Hp & Hc & Hl). unfold shutdown. cbn [fst snd].
  rewrite Hm. simpl. rewrite (stop_exited b o pid c Hp Hc Hl).
  cbn [fst snd]. rewrite String.eqb_refl.
  destruct m as [cl br cf]. simpl in *. now subst br.
Qed.

End AWSQShutdownFacts.


(** X17 at a manager whose only bridge was already stopped. *)
Lemma awsq_shutdown_aborts_witness :
  fst (AWSQManager.shutdown
         (AWSQManager.mk_manager
            [("fs", connected_client "fs")]
            [("fs", fst (snd (STDIOBridge.stop (started fs_config silent))))]
            [("fs", fs_config)],
          snd (snd (STDIOBridge.stop (started fs_config silent)))))
  = Raise (Exn ProcessLookupError EmptyString).
Proof.
  rewrite (awsq_shutdown_aborts
             (AWSQManager.mk_manager
                [("fs", connected_client "fs")]
                [("fs", fst (snd (STDIOBridge.stop (started fs_config silent))))]
                [("fs", fs_config)])
             (snd (snd (STDIOBridge.stop (started fs_config silent))))
             "fs"
             (fst (snd (STDIOBridge.stop (started fs_config silent))))
             [] eq_refl).
  - reflexivity.
  - exists 0%nat, (STDIOBridge.mk_child STDIOBridge.Exited [] [] silent).
    repeat split; reflexivity.
Defined.
